(** * geotagger: nearest track point, DMS encoding and the EXIF GPS record

    A shallow embedding of [main.py].  Python floats are modelled by the
    rationals [Q] and their arithmetic is exact, where binary64 rounds.
    Comparisons, [abs], [floor] and [int] are the same in both; a sum or a
    product is not, so a statement that depends on the value of one is made
    where binary64 computes it exactly: the mean of two neighbours for
    timestamps that are whole seconds (what the GPX time format yields),
    [dec % degrees] on a whole number of degrees.  Python exceptions are
    modelled by the error side of [outcome]; numpy's [searchsorted] is
    modelled by the leftmost binary search it performs. *)

From Stdlib Require Import ZArith QArith Qround Qabs Lia Lqa List Ascii String.
From stdpp Require Import gmap.
Import ListNotations.

Local Open Scope Q_scope.

(** ** Exceptions and results *)

(** The exceptions the embedded code raises.  [OtherError] stands for what
    the external collaborators (piexif, datetime) raise. *)
Inductive exn : Type :=
  | IndexError
  | ZeroDivisionError
  | ValueError
  | OtherError (name : string).

Inductive outcome (A : Type) : Type :=
  | Ok (a : A)
  | Raise (e : exn).

Arguments Ok {A} a.
Arguments Raise {A} e.

Definition bind {A B : Type} (m : outcome A) (k : A -> outcome B) : outcome B :=
  match m with
  | Ok a => k a
  | Raise e => Raise e
  end.

Notation "'let*' x ':=' m 'in' k" := (bind m (fun x => k))
  (at level 10, x name, m at level 100, k at level 200, only parsing).

(** ** Python and numpy primitives used by the program *)

Module Py.

Definition Qlt_bool (x y : Q) : bool := negb (Qle_bool y x).

(** [int(x)] on a float: truncation toward zero. *)
Definition int (x : Q) : Z := Z.quot (Qnum x) (Zpos (Qden x)).

(** [math.floor(x)]. *)
Definition floor (x : Q) : Z := Qfloor x.

(** [x % y] on floats: the result has the sign of [y]. *)
Definition mod_ (x y : Q) : outcome Q :=
  if Qeq_bool y 0 then Raise ZeroDivisionError
  else Ok (x - y * inject_Z (Qfloor (x / y))).

(** [x // y] on floats. *)
Definition floordiv (x y : Q) : outcome Q :=
  if Qeq_bool y 0 then Raise ZeroDivisionError
  else Ok (inject_Z (Qfloor (x / y))).

(** [l[i]] on a list or a one-dimensional array: a negative index counts
    from the end, anything outside [-len, len) raises. *)
Definition getitem {A : Type} (l : list A) (i : Z) : outcome A :=
  let n := Z.of_nat (List.length l) in
  let k := (if i <? 0 then i + n else i)%Z in
  if ((0 <=? k) && (k <? n))%Z then
    match nth_error l (Z.to_nat k) with
    | Some x => Ok x
    | None => Raise IndexError
    end
  else Raise IndexError.

(** The bound of a slice [l[start:stop]], clamped as Python does. *)
Definition slice_bound (n i : Z) : Z :=
  (if i <? 0 then Z.max (i + n) 0 else Z.min i n)%Z.

(** [l[start:stop]]. *)
Definition slice {A : Type} (l : list A) (start stop : Z) : list A :=
  let n := Z.of_nat (List.length l) in
  let lo := Z.to_nat (slice_bound n start) in
  let hi := Z.to_nat (slice_bound n stop) in
  firstn (hi - lo) (skipn lo l).

End Py.

Module Np.

Definition sum (l : list Q) : Q := fold_right Qplus 0 l.

(** [a.mean()]: [None] is the NaN numpy returns for an empty array. *)
Definition mean (l : list Q) : option Q :=
  match l with
  | [] => None
  | _ => Some (sum l / inject_Z (Z.of_nat (List.length l)))
  end.

(** [x >= m] where [m] may be NaN: every comparison with NaN is false. *)
Definition ge_mean (x : Q) (m : option Q) : bool :=
  match m with
  | Some v => Qle_bool v x
  | None => false
  end.

(** The loop of [searchsorted(a, v)] with [side='left']: the interval
    [lo, hi) is halved while it is not empty. *)
Fixpoint bisect_left (fuel : nat) (a : list Q) (v : Q) (lo hi : nat) : nat :=
  match fuel with
  | O => lo
  | S fuel' =>
      if (lo <? hi)%nat then
        let mid := (lo + (hi - lo) / 2)%nat in
        if Py.Qlt_bool (nth mid a 0) v
        then bisect_left fuel' a v (S mid) hi
        else bisect_left fuel' a v lo mid
      else lo
  end.

Definition searchsorted (a : list Q) (v : Q) : nat :=
  bisect_left (List.length a) a v 0 (List.length a).

End Np.

(** ** [nearest_gpx_point] *)

(** The [@cache] decorator memoises a pure function and does not change
    its results, so it has no counterpart here. *)
Definition nearest_gpx_point (times : list Q) (photo_time : Q) : outcome Z :=
  let i := Z.of_nat (Np.searchsorted times photo_time) in
  let* ti := Py.getitem times i in
  if Qeq_bool photo_time ti
     || Np.ge_mean photo_time (Np.mean (Py.slice times (i - 1) (i + 1)))
  then Ok i
  else Ok (i - 1)%Z.

(** ** [to_degrees_minutes_seconds] *)

Definition PRECISION : Z := 10000.

(** Lines 137-143: the hemisphere label. *)
Definition hemisphere (dec : Q) (lon : bool) : string :=
  if Py.Qlt_bool dec 0 && lon then "W"
  else if Py.Qlt_bool dec 0 && negb lon then "S"
  else if lon then "E"
  else "N".

(** [degrees] is [int(floor(dec))]; [floor] already returns an integer, on
    which [int] is the identity. *)
Definition to_degrees_minutes_seconds (dec : Q) (lon : bool)
  : outcome (Z * Z * Z * string) :=
  let ref := hemisphere dec lon in
  let dec := Qabs dec in
  let degrees := Py.floor dec in
  let* m1 := Py.mod_ dec (inject_Z degrees) in
  let* q1 := Py.floordiv (m1 * 3600) 60 in
  let minutes := Py.int q1 in
  let* m2 := Py.mod_ dec (inject_Z degrees) in
  let* s2 := Py.mod_ (m2 * 3600) 60 in
  let seconds := Py.floor (s2 * inject_Z PRECISION) in
  Ok (degrees, minutes, seconds, ref).

(** The decimal angle a returned tuple stands for:
    [degrees + minutes/60 + (seconds/PRECISION)/3600], negative in the
    western and southern hemispheres. *)
Definition dms_value (dms : Z * Z * Z * string) : Q :=
  let '(degrees, minutes, seconds, ref) := dms in
  let magnitude :=
    inject_Z degrees + inject_Z minutes / 60
    + (inject_Z seconds / inject_Z PRECISION) / 3600 in
  if (String.eqb ref "W" || String.eqb ref "S")%bool then - magnitude else magnitude.

(** ** [build_gps_dict] *)

(** The tag numbers of [piexif.GPSIFD] (the EXIF GPS tags). *)
Module GPSIFD.
Definition GPSLatitudeRef : Z := 1.
Definition GPSLatitude : Z := 2.
Definition GPSLongitudeRef : Z := 3.
Definition GPSLongitude : Z := 4.
Definition GPSAltitudeRef : Z := 5.
Definition GPSAltitude : Z := 6.
End GPSIFD.

Inductive exif_value : Type :=
  | Rationals (l : list (Z * Z))
  | Text (s : string)
  | Int (z : Z).

Definition build_gps_dict (elev : Q) (lon_dms lat_dms : Z * Z * Z * string)
  : gmap Z exif_value :=
  let '(lon0, lon1, lon2, lon3) := lon_dms in
  let '(lat0, lat1, lat2, lat3) := lat_dms in
  {[ GPSIFD.GPSLongitude := Rationals [(lon0, 1%Z); (lon1, 1%Z); (lon2, PRECISION)];
     GPSIFD.GPSLongitudeRef := Text lon3;
     GPSIFD.GPSLatitude := Rationals [(lat0, 1%Z); (lat1, 1%Z); (lat2, PRECISION)];
     GPSIFD.GPSLatitudeRef := Text lat3;
     GPSIFD.GPSAltitude := Rationals [(Py.int elev, 1%Z)];
     GPSIFD.GPSAltitudeRef := Int 0 ]}.

(** ** [parse_gpx] *)

(** A feature of the [track_points] layer as fiona yields it.  [time] is
    what [datetime.strptime(props.get("time"), ...).timestamp()] gives for
    the point: a timestamp, or the exception raised on a malformed text.
    [ele] is a number: a point without an elevation is not covered. *)
Record track_point : Type := {
  time : outcome Q;
  ele : Q;
  coordinates : Q * Q
}.

(** The GPX file found at a path: its layers and its track points. *)
Record gpx_file : Type := {
  layers : list string;
  track_points : list track_point
}.

Definition parse_point (acc : outcome (list Q * list (Q * Q * Q))) (point : track_point)
  : outcome (list Q * list (Q * Q * Q)) :=
  let* tc := acc in
  let* t := time point in
  Ok (fst tc ++ [t], snd tc ++ [(ele point, fst (coordinates point), snd (coordinates point))]).

(** [None] is a path at which no file exists. *)
Definition parse_gpx (gpx_path : option gpx_file) : outcome (list Q * list (Q * Q * Q)) :=
  match gpx_path with
  | None => Ok ([], [])
  | Some f =>
      if negb (existsb (String.eqb "track_points") (layers f)) then Ok ([], [])
      else fold_left parse_point (track_points f) (Ok ([], []))
  end.

(** ** [get_pattern] and [main] *)

Definition lower_ascii (c : ascii) : ascii :=
  let n := nat_of_ascii c in
  if ((65 <=? n) && (n <=? 90))%nat then ascii_of_nat (n + 32) else c.

(** [s.lower()], on ASCII text. *)
Fixpoint lower (s : string) : string :=
  match s with
  | EmptyString => EmptyString
  | String c s' => String (lower_ascii c) (lower s')
  end.

Definition get_pattern (ext : string) : outcome string :=
  if existsb (String.eqb (lower ext)) ["jpg"; "jpeg"]%string then Ok "*.[jpJP]*"%string
  else if String.eqb (lower ext) "webp" then Ok "*.[webWEB]*"%string
  else if existsb (String.eqb (lower ext)) ["tif"; "tiff"]%string then Ok "*.[tifTIF]*"%string
  else Raise ValueError.

Section Driver.

(** Paths of image files, loaded EXIF records and dumped EXIF bytes. *)
Variables image exif bytes : Type.

(** The external collaborators.  [date_time_original] is the timestamp
    of [exif["Exif"][DateTimeOriginal]] as [strptime] and
    [astimezone(UTC)] read it, or the exception raised on the way;
    [set_gps] is the assignment [exif["GPS"] = ...].  The offset is taken
    within the range in which [timedelta] and the shifted date exist. *)
Variable piexif_load : image -> outcome exif.
Variable date_time_original : exif -> outcome Q.
Variable set_gps : exif -> gmap Z exif_value -> exif.
Variable piexif_dump : exif -> outcome bytes.
Variable piexif_insert : bytes -> image -> outcome unit.

(** What [args.images] names: [Some im] when it is a file and not a
    directory, and what [glob] finds under it otherwise. *)
Variable image_dir : option image.
Variable glob : string -> list image.

(** The body of the [for] loop of [main], lines 198-212; its result is
    the bytes inserted into the image. *)
Definition geotag (times : list Q) (coords : list (Q * Q * Q)) (offset : Z)
  (im : image) : outcome bytes :=
  let* exif := piexif_load im in
  let* t := date_time_original exif in
  let taken_at := t + inject_Z offset in
  let* index := nearest_gpx_point times taken_at in
  let* c := Py.getitem coords index in
  let '(elev, lon, lat) := c in
  let* lon_dms := to_degrees_minutes_seconds lon true in
  let* lat_dms := to_degrees_minutes_seconds lat false in
  let exif := set_gps exif (build_gps_dict elev lon_dms lat_dms) in
  let* exif_bytes := piexif_dump exif in
  let* _ := piexif_insert exif_bytes im in
  Ok exif_bytes.

(** The [for] loop: [written] lists the images rewritten so far, with
    the bytes inserted.  An exception leaves the loop. *)
Fixpoint geotag_all (times : list Q) (coords : list (Q * Q * Q)) (offset : Z)
  (images : list image) (written : list (image * bytes))
  : list (image * bytes) * outcome unit :=
  match images with
  | [] => (written, Ok tt)
  | im :: rest =>
      match geotag times coords offset im with
      | Ok b => geotag_all times coords offset rest (written ++ [(im, b)])
      | Raise e => (written, Raise e)
      end
  end.

Definition offset_of (hours minutes seconds : Z) : Z :=
  if negb (hours =? 0)%Z then (hours * 3600)%Z
  else if negb (minutes =? 0)%Z then (minutes * 60)%Z
  else seconds.

Definition main (gpx : option gpx_file) (ext : string) (hours minutes seconds : Z)
  : list (image * bytes) * outcome unit :=
  let offset := offset_of hours minutes seconds in
  match get_pattern ext with
  | Raise e => ([], Raise e)
  | Ok pattern =>
      let images := match image_dir with
                    | Some im => [im]
                    | None => glob pattern
                    end in
      match parse_gpx gpx with
      | Raise e => ([], Raise e)
      | Ok (times, coords) => geotag_all times coords offset images []
      end
  end.

End Driver.

(** ** Vocabulary of the statements *)

(** A non-decreasing sequence of timestamps. *)
Fixpoint nondecreasing (l : list Q) : Prop :=
  match l with
  | [] => True
  | x :: l' =>
      match l' with
      | [] => True
      | y :: _ => x <= y
      end /\ nondecreasing l'
  end.

(** [times[j]], for an index in range. *)
Definition at_ (times : list Q) (j : nat) : Q := nth j times 0.

(** [r] is the leftmost insertion point of [v] in [a]: everything left of
    [r] is below [v], everything from [r] on is not. *)
Definition insertion_point (a : list Q) (v : Q) (r : nat) : Prop :=
  (forall k, (k < r)%nat -> at_ a k < v)
  /\ (forall k, (r <= k < length a)%nat -> v <= at_ a k).

(** Timestamps that are whole seconds, small enough for the sum of two of
    them to be a binary64 number: there the mean of two neighbours is
    computed without rounding. *)
Definition whole_seconds (times : list Q) : Prop :=
  Forall (fun t => exists z : Z, (Z.abs z <= 2 ^ 52)%Z /\ t == inject_Z z) times.

Definition first_time (times : list Q) : Q := at_ times 0.
Definition last_time (times : list Q) : Q := at_ times (List.length times - 1).

(** A row [(timestamp, elevation, longitude, latitude)] of a track log,
    as the track point fiona yields for it. *)
Definition point_of_row (row : Q * Q * Q * Q) : track_point :=
  let '(t, e, lon, lat) := row in
  {| time := Ok t; ele := e; coordinates := (lon, lat) |}.

Definition timestamp_of_row (row : Q * Q * Q * Q) : Q :=
  let '(t, _, _, _) := row in t.

Definition sample_of_row (row : Q * Q * Q * Q) : Q * Q * Q :=
  let '(_, e, lon, lat) := row in (e, lon, lat).

(** Stand-ins for the external collaborators, to run the driver on
    concrete batches: an image is named by its path, [broken.jpg] cannot
    be loaded, every other image was taken at timestamp 140, and dumping
    and inserting always succeed. *)
Module Fixture.

(** A loaded record: the capture time and the GPS block. *)
Definition load_gps (im : string) : outcome (Q * gmap Z exif_value) :=
  if String.eqb im "broken.jpg" then Raise (OtherError "InvalidImageDataError")
  else Ok (140, ∅).

Definition capture_time (exif : Q * gmap Z exif_value) : outcome Q := Ok (fst exif).

Definition store_gps (exif : Q * gmap Z exif_value) (gps : gmap Z exif_value)
  : Q * gmap Z exif_value := (fst exif, gps).

Definition dump (exif : Q * gmap Z exif_value) : outcome (gmap Z exif_value) :=
  Ok (snd exif).

Definition insert (b : gmap Z exif_value) (im : string) : outcome unit := Ok tt.

Definition geotag :=
  geotag string (Q * gmap Z exif_value) (gmap Z exif_value)
    load_gps capture_time store_gps dump insert.

Definition geotag_all :=
  geotag_all string (Q * gmap Z exif_value) (gmap Z exif_value)
    load_gps capture_time store_gps dump insert.

Definition times : list Q := [100; 200; 300].
Definition coords : list (Q * Q * Q) :=
  [(10, 1, 2); (20, 3 # 2, 5 # 2); (30, 5 # 4, 9 # 4)].

End Fixture.

(** * Properties *)

Example nearest_140 : nearest_gpx_point [100; 200; 300] 140 = Ok 0%Z.
Proof. reflexivity. Qed.
Example nearest_150 : nearest_gpx_point [100; 200; 300] 150 = Ok 1%Z.
Proof. reflexivity. Qed.
Example nearest_260 : nearest_gpx_point [100; 200; 300] 260 = Ok 2%Z.
Proof. reflexivity. Qed.
Example nearest_below : nearest_gpx_point [100; 200; 300] 50 = Ok (-1)%Z.
Proof. reflexivity. Qed.
Example nearest_above : nearest_gpx_point [100; 200; 300] 400 = Raise IndexError.
Proof. reflexivity. Qed.
Example nearest_empty : nearest_gpx_point [] 400 = Raise IndexError.
Proof. reflexivity. Qed.
Example dms_one : to_degrees_minutes_seconds 1 false = Ok (1, 0, 0, "N"%string)%Z.
Proof. reflexivity. Qed.
Example dms_half : to_degrees_minutes_seconds (1 # 2) false = Raise ZeroDivisionError.
Proof. reflexivity. Qed.
Example dms_zero : to_degrees_minutes_seconds 0 true = Raise ZeroDivisionError.
Proof. reflexivity. Qed.
Example dms_neg : to_degrees_minutes_seconds (- (91 # 2)) false = Ok (45, 30, 0, "S"%string)%Z.
Proof. reflexivity. Qed.
Example dms_frac : to_degrees_minutes_seconds (247 # 2) true = Ok (123, 30, 0, "E"%string)%Z.
Proof. reflexivity. Qed.

(** ** Comparisons and sequences *)

Lemma Qlt_bool_iff (x y : Q) : Py.Qlt_bool x y = true <-> x < y.
Proof.
  unfold Py.Qlt_bool. rewrite negb_true_iff. split.
  - intros H. apply Qnot_le_lt. intros Hle.
    apply Qle_bool_iff in Hle. congruence.
  - intros H. destruct (Qle_bool y x) eqn:E; [|reflexivity].
    apply Qle_bool_iff in E. exfalso. apply (Qlt_not_le _ _ H E).
Qed.

Lemma Qlt_bool_false (x y : Q) : Py.Qlt_bool x y = false <-> y <= x.
Proof.
  unfold Py.Qlt_bool. rewrite negb_false_iff. apply Qle_bool_iff.
Qed.

Lemma Qeq_bool_false (x y : Q) : Qeq_bool x y = false <-> ~ x == y.
Proof.
  split.
  - intros H E. apply Qeq_bool_iff in E. congruence.
  - intros H. destruct (Qeq_bool x y) eqn:E; [|reflexivity].
    apply Qeq_bool_iff in E. contradiction.
Qed.

Lemma nondecreasing_tail (x : Q) (l : list Q) :
  nondecreasing (x :: l) -> nondecreasing l.
Proof. intros [_ H]. exact H. Qed.

Lemma nondecreasing_head (l : list Q) :
  forall x j, nondecreasing (x :: l) -> (j < length l)%nat -> x <= nth j l 0.
Proof.
  induction l as [|y l IH]; intros x j H Hj; simpl in Hj; [lia|].
  destruct H as [Hxy Hl].
  destruct j as [|j]; simpl; [exact Hxy|].
  apply Qle_trans with y; [exact Hxy|].
  apply IH; [exact Hl|lia].
Qed.

Lemma nondecreasing_at (l : list Q) :
  nondecreasing l ->
  forall i j, (i <= j < length l)%nat -> at_ l i <= at_ l j.
Proof.
  unfold at_. induction l as [|x l IH]; intros H i j Hij; simpl in Hij; [lia|].
  destruct i as [|i].
  - destruct j as [|j]; simpl; [apply Qle_refl|].
    apply nondecreasing_head; [exact H|lia].
  - destruct j as [|j]; [lia|]. simpl.
    apply IH; [exact (nondecreasing_tail _ _ H)|lia].
Qed.

(** ** The binary search of [searchsorted] *)

Lemma bisect_left_step (fuel : nat) (a : list Q) (v : Q) (lo hi : nat) :
  Np.bisect_left (S fuel) a v lo hi =
  if (lo <? hi)%nat then
    if Py.Qlt_bool (nth (lo + (hi - lo) / 2) a 0) v
    then Np.bisect_left fuel a v (S (lo + (hi - lo) / 2)) hi
    else Np.bisect_left fuel a v lo (lo + (hi - lo) / 2)
  else lo.
Proof. reflexivity. Qed.

Section Bisect.

Variable a : list Q.
Variable v : Q.
Hypothesis a_sorted : nondecreasing a.

Lemma bisect_left_spec (fuel : nat) :
  forall lo hi,
    (hi - lo <= fuel)%nat -> (lo <= hi <= length a)%nat ->
    (forall k, (k < lo)%nat -> at_ a k < v) ->
    (forall k, (hi <= k < length a)%nat -> v <= at_ a k) ->
    (lo <= Np.bisect_left fuel a v lo hi <= hi)%nat
    /\ insertion_point a v (Np.bisect_left fuel a v lo hi).
Proof.
  induction fuel as [|fuel IH]; intros lo hi Hfuel Hb Hlo Hhi.
  - assert (lo = hi) by lia. subst hi.
    split; [simpl; lia|]. split; assumption.
  - rewrite bisect_left_step.
    destruct (lo <? hi)%nat eqn:Elt.
    + apply Nat.ltb_lt in Elt.
      assert (Hdiv : ((hi - lo) / 2 < hi - lo)%nat)
        by (apply Nat.div_lt; lia).
      set (mid := (lo + (hi - lo) / 2)%nat) in *.
      assert (Hmid : (lo <= mid < hi)%nat) by (unfold mid; lia).
      destruct (Py.Qlt_bool (nth mid a 0) v) eqn:Ecmp.
      * apply Qlt_bool_iff in Ecmp.
        assert (Hlo' : forall k, (k < S mid)%nat -> at_ a k < v).
        { intros k Hk. apply Qle_lt_trans with (at_ a mid); [|exact Ecmp].
          apply nondecreasing_at; [exact a_sorted|lia]. }
        destruct (IH (S mid) hi ltac:(lia) ltac:(lia) Hlo' Hhi) as [Hr Hs].
        split; [lia|exact Hs].
      * apply Qlt_bool_false in Ecmp.
        assert (Hhi' : forall k, (mid <= k < length a)%nat -> v <= at_ a k).
        { intros k Hk. apply Qle_trans with (at_ a mid); [exact Ecmp|].
          apply nondecreasing_at; [exact a_sorted|lia]. }
        destruct (IH lo mid ltac:(lia) ltac:(lia) Hlo Hhi') as [Hr Hs].
        split; [lia|exact Hs].
    + apply Nat.ltb_ge in Elt. assert (lo = hi) by lia. subst hi.
      split; [lia|]. split; assumption.
Qed.

Lemma searchsorted_spec :
  (Np.searchsorted a v <= length a)%nat /\ insertion_point a v (Np.searchsorted a v).
Proof.
  unfold Np.searchsorted.
  destruct (bisect_left_spec (length a) 0 (length a)) as [Hr Hs];
    [lia | lia | intros k Hk; lia | intros k Hk; lia |].
  split; [lia|exact Hs].
Qed.

(** The insertion point is determined by the split. *)
Lemma insertion_point_unique (r r' : nat) :
  (r <= length a)%nat -> (r' <= length a)%nat ->
  insertion_point a v r -> insertion_point a v r' -> r = r'.
Proof.
  intros Hr Hr' [H1 H2] [H1' H2'].
  destruct (Nat.lt_trichotomy r r') as [Hlt|[Heq|Hgt]]; [|exact Heq|].
  - exfalso. apply (Qlt_not_le _ _ (H1' r Hlt)). apply H2. lia.
  - exfalso. apply (Qlt_not_le _ _ (H1 r' Hgt)). apply H2'. lia.
Qed.

End Bisect.

(** ** Indexing and slicing *)

Lemma getitem_in_range {A : Type} (l : list A) (d : A) (i : nat) :
  (i < length l)%nat -> Py.getitem l (Z.of_nat i) = Ok (nth i l d).
Proof.
  intros Hi. unfold Py.getitem.
  destruct (Z.of_nat i <? 0)%Z eqn:E0; [apply Z.ltb_lt in E0; lia|].
  replace ((0 <=? Z.of_nat i)%Z && (Z.of_nat i <? Z.of_nat (length l))%Z) with true.
  - rewrite Nat2Z.id. rewrite (nth_error_nth' l d Hi). reflexivity.
  - symmetry. apply andb_true_iff. split; [apply Z.leb_le|apply Z.ltb_lt]; lia.
Qed.

Lemma getitem_at_length {A : Type} (l : list A) :
  Py.getitem l (Z.of_nat (length l)) = Raise IndexError.
Proof.
  unfold Py.getitem.
  destruct (Z.of_nat (length l) <? 0)%Z eqn:E0; [apply Z.ltb_lt in E0; lia|].
  rewrite Z.ltb_irrefl, andb_false_r. reflexivity.
Qed.

Lemma firstn_skipn_pair (l : list Q) :
  forall k, (S k < length l)%nat ->
    firstn 2 (skipn k l) = [nth k l 0; nth (S k) l 0].
Proof.
  induction l as [|x l IH]; intros k Hk; simpl in Hk; [lia|].
  destruct k as [|k].
  - destruct l as [|y l]; simpl in Hk; [lia|]. reflexivity.
  - simpl skipn. rewrite IH by lia. reflexivity.
Qed.

(** [times[i-1:i+1]] for an index with a left neighbour. *)
Lemma slice_pair (l : list Q) (r : nat) :
  (1 <= r < length l)%nat ->
  Py.slice l (Z.of_nat r - 1) (Z.of_nat r + 1) = [at_ l (r - 1); at_ l r].
Proof.
  intros Hr. unfold Py.slice, Py.slice_bound, at_.
  destruct (Z.of_nat r - 1 <? 0)%Z eqn:E1; [apply Z.ltb_lt in E1; lia|].
  destruct (Z.of_nat r + 1 <? 0)%Z eqn:E2; [apply Z.ltb_lt in E2; lia|].
  rewrite !Z.min_l by lia.
  replace (Z.to_nat (Z.of_nat r + 1) - Z.to_nat (Z.of_nat r - 1))%nat with 2%nat by lia.
  replace (Z.to_nat (Z.of_nat r - 1)) with (r - 1)%nat by lia.
  rewrite firstn_skipn_pair by lia.
  replace (S (r - 1)) with r by lia. reflexivity.
Qed.

(** [times[-1:1]], the slice taken when the insertion point is 0: the
    start bound wraps around to the last element. *)
Lemma slice_wrapped_single (l : list Q) :
  length l = 1%nat -> Py.slice l (Z.of_nat 0 - 1) (Z.of_nat 0 + 1) = [at_ l 0].
Proof.
  intros Hl. destruct l as [|x [|y l]]; simpl in Hl; try lia. reflexivity.
Qed.

Lemma slice_wrapped_empty (l : list Q) :
  (2 <= length l)%nat -> Py.slice l (Z.of_nat 0 - 1) (Z.of_nat 0 + 1) = [].
Proof.
  intros Hl. unfold Py.slice, Py.slice_bound.
  change (Z.of_nat 0 - 1 <? 0)%Z with true.
  change (Z.of_nat 0 + 1 <? 0)%Z with false.
  cbv iota.
  match goal with
  | |- firstn ?n _ = _ => assert (E : n = 0%nat) by lia; rewrite E
  end.
  reflexivity.
Qed.

Lemma ge_mean_pair (q x y : Q) :
  Np.ge_mean q (Np.mean [x; y]) = Qle_bool ((x + y) / 2) q.
Proof.
  unfold Np.ge_mean, Np.mean, Np.sum. simpl fold_right.
  apply Qleb_comp; [|reflexivity]. simpl. field.
Qed.

Lemma ge_mean_single (q x : Q) :
  Np.ge_mean q (Np.mean [x]) = Qle_bool x q.
Proof.
  unfold Np.ge_mean, Np.mean, Np.sum. simpl fold_right.
  apply Qleb_comp; [|reflexivity]. simpl. field.
Qed.

(** ** The matcher on a query inside the track *)

Lemma Qhalf (x : Q) : x / 2 == x * (1 # 2).
Proof. field. Qed.

Ltac abs_cases x :=
  let H := fresh "Habs" in
  destruct (Qlt_le_dec x 0) as [H|H];
  [ rewrite (Qabs_neg x) by (apply Qlt_le_weak; exact H)
  | rewrite (Qabs_pos x) by exact H ].

Lemma searchsorted_in_range (times : list Q) (q : Q) :
  nondecreasing times -> (1 <= length times)%nat ->
  q <= last_time times ->
  (Np.searchsorted times q < length times)%nat.
Proof.
  intros Hs Hn Hq.
  destruct (searchsorted_spec times q Hs) as [Hr [Hlt _]].
  destruct (Nat.eq_dec (Np.searchsorted times q) (length times)) as [E|E]; [|lia].
  exfalso. apply (Qlt_not_le _ _ (Hlt (length times - 1)%nat ltac:(lia))).
  exact Hq.
Qed.

(** The three ways a query inside the track is answered: an exact match
    at the insertion point [r], or a query strictly between [r-1] and [r]
    that is sent to [r] from the midpoint on and to [r-1] before it. *)
Lemma nearest_gpx_point_cases (times : list Q) (q : Q) :
  nondecreasing times -> (1 <= length times)%nat ->
  first_time times <= q <= last_time times ->
  let r := Np.searchsorted times q in
  (r < length times)%nat /\ insertion_point times q r /\
  ((q == at_ times r /\ nearest_gpx_point times q = Ok (Z.of_nat r))
   \/ ((1 <= r)%nat /\ at_ times (r - 1) < q /\ q < at_ times r /\
       (((at_ times (r - 1) + at_ times r) / 2 <= q
         /\ nearest_gpx_point times q = Ok (Z.of_nat r))
        \/ (q < (at_ times (r - 1) + at_ times r) / 2
            /\ nearest_gpx_point times q = Ok (Z.of_nat (r - 1)))))).
Proof.
  intros Hs Hn [Hfirst Hlast] r.
  assert (Hr : (r < length times)%nat) by (apply searchsorted_in_range; assumption).
  destruct (searchsorted_spec times q Hs) as [_ Hsplit]. fold r in Hsplit.
  split; [exact Hr|]. split; [exact Hsplit|].
  destruct Hsplit as [Hlt Hge].
  unfold nearest_gpx_point. fold r.
  rewrite (getitem_in_range times 0 r Hr). simpl bind. fold (at_ times r).
  destruct (Qeq_bool q (at_ times r)) eqn:Eeq.
  - left. split; [apply Qeq_bool_iff; exact Eeq|reflexivity].
  - right. apply Qeq_bool_false in Eeq.
    assert (Hqr : q < at_ times r).
    { assert (Hle : q <= at_ times r) by (apply Hge; lia).
      apply Qle_lteq in Hle as [H|H]; [exact H|contradiction]. }
    assert (Hr1 : (1 <= r)%nat).
    { destruct r as [|r'] eqn:Er; [|lia]. exfalso.
      apply (Qlt_not_le _ _ Hqr). exact Hfirst. }
    split; [exact Hr1|]. split; [apply Hlt; lia|]. split; [exact Hqr|].
    rewrite slice_pair by lia. rewrite ge_mean_pair. simpl orb.
    destruct (Qle_bool ((at_ times (r - 1) + at_ times r) / 2) q) eqn:Emid.
    + left. split; [apply Qle_bool_iff; exact Emid|reflexivity].
    + right. split.
      * apply Qnot_le_lt. intros H. apply Qle_bool_iff in H. congruence.
      * f_equal. lia.
Qed.

(** A query strictly between two neighbours has the later one as its
    insertion point. *)
Lemma insertion_point_between (times : list Q) (q : Q) (r k : nat) :
  (r <= length times)%nat -> insertion_point times q r ->
  (S k < length times)%nat -> at_ times k < q -> q <= at_ times (S k) ->
  r = S k.
Proof.
  intros Hr [Hlt Hge] Hk Hlo Hhi.
  destruct (Nat.lt_trichotomy r (S k)) as [H|[H|H]]; [|exact H|].
  - exfalso. apply (Qlt_not_le _ _ Hlo). apply Hge. lia.
  - exfalso. apply (Qlt_not_le _ _ (Hlt (S k) H)). exact Hhi.
Qed.

(** The index returned for a query inside the track is a nearest one. *)
Lemma nearest_gpx_point_closest (times : list Q) (q : Q) :
  nondecreasing times -> (1 <= length times)%nat ->
  first_time times <= q <= last_time times ->
  exists i, nearest_gpx_point times q = Ok (Z.of_nat i)
    /\ (i < length times)%nat
    /\ forall j, (j < length times)%nat ->
         Qabs (at_ times i - q) <= Qabs (at_ times j - q).
Proof.
  intros Hs Hn Hq.
  destruct (nearest_gpx_point_cases times q Hs Hn Hq) as [Hr [[Hlt Hge] Hc]].
  set (r := Np.searchsorted times q) in *.
  assert (Hside : forall j, (j < length times)%nat ->
            (j < r)%nat /\ at_ times j < q /\ at_ times j <= at_ times (r - 1)
            \/ (r <= j)%nat /\ q <= at_ times j /\ at_ times r <= at_ times j).
  { intros j Hj. destruct (Nat.lt_ge_cases j r) as [H|H].
    - left. split; [exact H|]. split; [apply Hlt; exact H|].
      apply nondecreasing_at; [exact Hs|lia].
    - right. split; [exact H|]. split; [apply Hge; lia|].
      apply nondecreasing_at; [exact Hs|lia]. }
  destruct Hc as [[Heq Hres]|[Hr1 [Hlo [Hhi [[Hmid Hres]|[Hmid Hres]]]]]].
  - exists r. split; [exact Hres|]. split; [exact Hr|].
    intros j Hj.
    assert (E : at_ times r - q == 0) by lra.
    rewrite E. change (Qabs 0) with 0. apply Qabs_nonneg.
  - exists r. split; [exact Hres|]. split; [exact Hr|].
    intros j Hj.
    assert (Hm : at_ times (r - 1) + at_ times r <= 2 * q)
      by (rewrite Qhalf in Hmid; lra).
    abs_cases (at_ times r - q); abs_cases (at_ times j - q);
      destruct (Hside j Hj) as [[_ [H1 H2]]|[_ [H1 H2]]]; lra.
  - exists (r - 1)%nat. split; [exact Hres|]. split; [lia|].
    intros j Hj.
    assert (Hm : 2 * q < at_ times (r - 1) + at_ times r)
      by (rewrite Qhalf in Hmid; lra).
    abs_cases (at_ times (r - 1) - q); abs_cases (at_ times j - q);
      destruct (Hside j Hj) as [[_ [H1 H2]]|[_ [H1 H2]]]; lra.
Qed.

(** At the midpoint of two neighbours that differ, the later one wins. *)
Lemma nearest_gpx_point_midpoint (times : list Q) (q : Q) (k : nat) :
  nondecreasing times -> (S k < length times)%nat ->
  at_ times k < at_ times (S k) ->
  q == (at_ times k + at_ times (S k)) / 2 ->
  nearest_gpx_point times q = Ok (Z.of_nat (S k)).
Proof.
  intros Hs Hk Hdiff Hq. rewrite Qhalf in Hq.
  assert (Hlo : at_ times k < q) by lra.
  assert (Hhi : q < at_ times (S k)) by lra.
  assert (Hrange : first_time times <= q <= last_time times).
  { split.
    - apply Qle_trans with (at_ times k); [|lra].
      apply nondecreasing_at; [exact Hs|lia].
    - apply Qle_trans with (at_ times (S k)); [lra|].
      apply nondecreasing_at; [exact Hs|lia]. }
  destruct (nearest_gpx_point_cases times q Hs ltac:(lia) Hrange) as [Hr [Hsplit Hc]].
  set (r := Np.searchsorted times q) in *.
  assert (Er : r = S k).
  { apply (insertion_point_between times q r k); try assumption; [lia|lra]. }
  rewrite Er in Hc. replace (S k - 1)%nat with k in Hc by lia.
  destruct Hc as [[Heq _]|[_ [_ [_ [[_ Hres]|[Hmid _]]]]]].
  - lra.
  - exact Hres.
  - rewrite Qhalf in Hmid. lra.
Qed.

(** ** The matcher on a query outside the track *)

Lemma getitem_cases {A : Type} (l : list A) (i : Z) :
  Py.getitem l i = Raise IndexError
  \/ (exists x, Py.getitem l i = Ok x)
     /\ (- Z.of_nat (length l) <= i < Z.of_nat (length l))%Z.
Proof.
  unfold Py.getitem.
  destruct (i <? 0)%Z eqn:E0.
  - apply Z.ltb_lt in E0.
    destruct ((0 <=? i + Z.of_nat (length l))%Z
              && (i + Z.of_nat (length l) <? Z.of_nat (length l))%Z) eqn:Eb;
      [|left; reflexivity].
    apply andb_true_iff in Eb as [H1 H2].
    apply Z.leb_le in H1. apply Z.ltb_lt in H2.
    destruct (nth_error l _); [right|left; reflexivity].
    split; [eexists; reflexivity|lia].
  - apply Z.ltb_ge in E0.
    destruct ((0 <=? i)%Z && (i <? Z.of_nat (length l))%Z) eqn:Eb;
      [|left; reflexivity].
    apply andb_true_iff in Eb as [H1 H2].
    apply Z.leb_le in H1. apply Z.ltb_lt in H2.
    destruct (nth_error l _); [right|left; reflexivity].
    split; [eexists; reflexivity|lia].
Qed.

(** Reading [times[i]] is the only step of the matcher that can fail. *)
Lemma nearest_gpx_point_raises (times : list Q) (q : Q) (e : exn) :
  nearest_gpx_point times q = Raise e -> e = IndexError.
Proof.
  unfold nearest_gpx_point.
  destruct (getitem_cases times (Z.of_nat (Np.searchsorted times q)))
    as [E|[[x E] _]]; rewrite E; cbn [bind].
  - intros H. injection H as <-. reflexivity.
  - destruct (_ || _); discriminate.
Qed.

Lemma searchsorted_below (times : list Q) (q : Q) :
  nondecreasing times -> (1 <= length times)%nat -> q < first_time times ->
  Np.searchsorted times q = 0%nat.
Proof.
  intros Hs Hn Hq.
  destruct (searchsorted_spec times q Hs) as [_ [Hlt _]].
  destruct (Np.searchsorted times q) as [|r]; [reflexivity|].
  exfalso. apply (Qlt_irrefl q).
  apply Qlt_trans with (first_time times); [exact Hq|]. apply Hlt. lia.
Qed.

Lemma searchsorted_above (times : list Q) (q : Q) :
  nondecreasing times -> (1 <= length times)%nat -> last_time times < q ->
  Np.searchsorted times q = length times.
Proof.
  intros Hs Hn Hq.
  destruct (searchsorted_spec times q Hs) as [Hr [_ Hge]].
  destruct (Nat.eq_dec (Np.searchsorted times q) (length times)) as [E|E];
    [exact E|].
  exfalso. apply (Qlt_not_le _ _ Hq). apply Hge. lia.
Qed.

Lemma nearest_gpx_point_below (times : list Q) (q : Q) :
  nondecreasing times -> (1 <= length times)%nat -> q < first_time times ->
  nearest_gpx_point times q = Ok (-1)%Z.
Proof.
  intros Hs Hn Hq. unfold nearest_gpx_point.
  rewrite (searchsorted_below times q Hs Hn Hq).
  rewrite (getitem_in_range times 0 0%nat) by lia. simpl bind.
  fold (at_ times 0). fold (first_time times).
  assert (Eeq : Qeq_bool q (first_time times) = false).
  { apply Qeq_bool_false. intros E. rewrite E in Hq. apply (Qlt_irrefl _ Hq). }
  rewrite Eeq. simpl orb.
  destruct (Nat.eq_dec (length times) 1%nat) as [E1|E1].
  - rewrite slice_wrapped_single by exact E1. rewrite ge_mean_single.
    fold (first_time times).
    assert (Ele : Qle_bool (first_time times) q = false).
    { destruct (Qle_bool (first_time times) q) eqn:E; [|reflexivity].
      apply Qle_bool_iff in E. exfalso. apply (Qlt_not_le _ _ Hq E). }
    rewrite Ele. reflexivity.
  - rewrite slice_wrapped_empty by lia. reflexivity.
Qed.

Lemma nearest_gpx_point_above (times : list Q) (q : Q) :
  nondecreasing times -> (1 <= length times)%nat -> last_time times < q ->
  nearest_gpx_point times q = Raise IndexError.
Proof.
  intros Hs Hn Hq. unfold nearest_gpx_point.
  rewrite (searchsorted_above times q Hs Hn Hq).
  rewrite getitem_at_length. reflexivity.
Qed.

(** ** Claims about [nearest_gpx_point] *)

(** C1, as amended: for a non-decreasing [times] of whole seconds, of
    length at least 1, and a query [q] between the first and the last
    timestamp, the matcher returns an index [i] in range such that no
    index [j] has a strictly smaller [|times[j] - q|]; when [q] is the
    midpoint of two adjacent timestamps that differ, the later index is
    returned.  On [100, 200, 300] the queries 140, 150 and 260 give 0, 1
    and 2. *)
Theorem nearest_gpx_point_in_range :
  (forall (times : list Q) (q : Q),
      whole_seconds times ->
      nondecreasing times -> (1 <= length times)%nat ->
      first_time times <= q <= last_time times ->
      exists i, nearest_gpx_point times q = Ok (Z.of_nat i)
        /\ (i < length times)%nat
        /\ (forall j, (j < length times)%nat ->
              Qabs (at_ times i - q) <= Qabs (at_ times j - q))
        /\ (forall k, (S k < length times)%nat ->
              at_ times k < at_ times (S k) ->
              q == (at_ times k + at_ times (S k)) / 2 -> i = S k))
  /\ nearest_gpx_point [100; 200; 300] 140 = Ok 0%Z
  /\ nearest_gpx_point [100; 200; 300] 150 = Ok 1%Z
  /\ nearest_gpx_point [100; 200; 300] 260 = Ok 2%Z.
Proof.
  split; [|repeat split; reflexivity].
  intros times q _ Hs Hn Hq.
  destruct (nearest_gpx_point_closest times q Hs Hn Hq) as [i [Hres [Hi Hmin]]].
  exists i. repeat split; try assumption.
  intros k Hk Hdiff Hmid.
  pose proof (nearest_gpx_point_midpoint times q k Hs Hk Hdiff Hmid) as Hres'.
  rewrite Hres in Hres'. injection Hres' as E. lia.
Qed.

Lemma nearest_gpx_point_in_range_witness :
  exists i, nearest_gpx_point [100; 200; 300] 150 = Ok (Z.of_nat i)
    /\ (i < length [100; 200; 300])%nat
    /\ (forall j, (j < length [100; 200; 300])%nat ->
          Qabs (at_ [100; 200; 300] i - 150) <= Qabs (at_ [100; 200; 300] j - 150))
    /\ (forall k, (S k < length [100; 200; 300])%nat ->
          at_ [100; 200; 300] k < at_ [100; 200; 300] (S k) ->
          150 == (at_ [100; 200; 300] k + at_ [100; 200; 300] (S k)) / 2 -> i = S k).
Proof.
  apply (proj1 nearest_gpx_point_in_range [100; 200; 300] 150).
  - repeat constructor.
    + exists 100%Z. split; [apply Z.leb_le; reflexivity|reflexivity].
    + exists 200%Z. split; [apply Z.leb_le; reflexivity|reflexivity].
    + exists 300%Z. split; [apply Z.leb_le; reflexivity|reflexivity].
  - simpl. repeat split; lra.
  - simpl. lia.
  - unfold first_time, last_time, at_. simpl. split; lra.
Defined.

(** C1 as it is written fails on duplicates: 100 is the midpoint of the
    adjacent timestamps 100 and 100, and the earlier index is returned. *)
Lemma nearest_gpx_point_midpoint_of_duplicates :
  nondecreasing [100; 100]
  /\ first_time [100; 100] <= 100 <= last_time [100; 100]
  /\ 100 == (at_ [100; 100] 0 + at_ [100; 100] 1) / 2
  /\ nearest_gpx_point [100; 100] 100 = Ok 0%Z
  /\ nearest_gpx_point [100; 100] 100 <> Ok 1%Z.
Proof.
  unfold first_time, last_time, at_. simpl nth.
  repeat split; try (simpl; lra); try reflexivity.
  discriminate.
Qed.

(** C5: what the code does outside the track, for a non-decreasing
    [times] of length at least 1: a query below the first timestamp gives
    -1 (which, as an index, denotes the last sample) and a query above the
    last timestamp raises [IndexError]; neither is clamped. *)
Theorem nearest_gpx_point_out_of_range (times : list Q) (q : Q) :
  nondecreasing times -> (1 <= length times)%nat ->
  (q < first_time times -> nearest_gpx_point times q = Ok (-1)%Z)
  /\ (last_time times < q -> nearest_gpx_point times q = Raise IndexError).
Proof.
  intros Hs Hn. split; intros Hq.
  - apply nearest_gpx_point_below; assumption.
  - apply nearest_gpx_point_above; assumption.
Qed.

Lemma nearest_gpx_point_out_of_range_witness :
  nearest_gpx_point [100; 200; 300] 50 = Ok (-1)%Z
  /\ nearest_gpx_point [100; 200; 300] 400 = Raise IndexError.
Proof.
  assert (Hs : nondecreasing [100; 200; 300]) by (simpl; repeat split; lra).
  assert (Hn : (1 <= length [100; 200; 300])%nat) by (simpl; lia).
  split.
  - apply (proj1 (nearest_gpx_point_out_of_range [100; 200; 300] 50 Hs Hn)).
    unfold first_time, at_. simpl. lra.
  - apply (proj2 (nearest_gpx_point_out_of_range [100; 200; 300] 400 Hs Hn)).
    unfold last_time, at_. simpl. lra.
Defined.

(** C6, as amended: on an empty [times] the matcher fails for every
    query, with the [IndexError] of reading [times[0]]; [IndexError] is
    the only exception it raises, on any input; on a non-empty
    non-decreasing [times] it returns an index for every query between the
    first and the last timestamp. *)
Theorem nearest_gpx_point_failure :
  (forall q, nearest_gpx_point [] q = Raise IndexError)
  /\ (forall (times : list Q) (q : Q) (e : exn),
        nearest_gpx_point times q = Raise e -> e = IndexError)
  /\ (forall (times : list Q) (q : Q),
        nondecreasing times -> (1 <= length times)%nat ->
        first_time times <= q <= last_time times ->
        exists i, nearest_gpx_point times q = Ok i).
Proof.
  split; [|split].
  - intros q. reflexivity.
  - apply nearest_gpx_point_raises.
  - intros times q Hs Hn Hq.
    destruct (nearest_gpx_point_closest times q Hs Hn Hq) as [i [Hres _]].
    exists (Z.of_nat i). exact Hres.
Qed.

Lemma nearest_gpx_point_failure_witness :
  IndexError = IndexError
  /\ exists i, nearest_gpx_point [100; 200; 300] 140 = Ok i.
Proof.
  split.
  - apply (proj1 (proj2 nearest_gpx_point_failure) [100] 200 IndexError).
    reflexivity.
  - apply (proj2 (proj2 nearest_gpx_point_failure) [100; 200; 300] 140).
    + simpl. repeat split; lra.
    + simpl. lia.
    + unfold first_time, last_time, at_. simpl. split; lra.
Defined.

(** C6 as it is written fails: the exception on an empty series is
    [IndexError], and a series of length 1 fails as well, for a query
    above its timestamp. *)
Lemma nearest_gpx_point_fails_on_nonempty :
  nearest_gpx_point [] 200 = Raise IndexError
  /\ length [100] = 1%nat
  /\ nearest_gpx_point [100] 200 = Raise IndexError.
Proof. repeat split. Qed.

(** C10: for a non-decreasing [times] and a query [q] that occurs in it,
    the matcher returns the smallest index [j] with [times[j] == q]. *)
Theorem nearest_gpx_point_exact_match (times : list Q) (q : Q) :
  nondecreasing times ->
  (exists k, (k < length times)%nat /\ at_ times k == q) ->
  exists j, nearest_gpx_point times q = Ok (Z.of_nat j)
    /\ (j < length times)%nat
    /\ at_ times j == q
    /\ forall k, (k < length times)%nat -> at_ times k == q -> (j <= k)%nat.
Proof.
  intros Hs [k [Hk Hkq]].
  assert (Hn : (1 <= length times)%nat) by lia.
  assert (Hrange : first_time times <= q <= last_time times).
  { split.
    - rewrite <- Hkq. apply nondecreasing_at; [exact Hs|lia].
    - rewrite <- Hkq. apply nondecreasing_at; [exact Hs|lia]. }
  destruct (nearest_gpx_point_cases times q Hs Hn Hrange) as [Hr [[Hlt Hge] Hc]].
  set (r := Np.searchsorted times q) in *.
  assert (Hleft : forall k', (k' < length times)%nat -> at_ times k' == q ->
                    (r <= k')%nat).
  { intros k' _ Hq'. destruct (Nat.lt_ge_cases k' r) as [H|H]; [|exact H].
    exfalso. pose proof (Hlt k' H) as Hlt'. rewrite Hq' in Hlt'.
    apply (Qlt_irrefl _ Hlt'). }
  destruct Hc as [[Heq Hres]|[_ [_ [Hhi _]]]].
  - exists r. split; [exact Hres|]. split; [exact Hr|].
    split; [symmetry; exact Heq|exact Hleft].
  - exfalso. apply (Qlt_not_le _ _ Hhi). rewrite <- Hkq.
    apply nondecreasing_at; [exact Hs|]. pose proof (Hleft k Hk Hkq). lia.
Qed.

Lemma nearest_gpx_point_exact_match_witness :
  exists j, nearest_gpx_point [100; 200; 200; 300] 200 = Ok (Z.of_nat j)
    /\ (j < length [100; 200; 200; 300])%nat
    /\ at_ [100; 200; 200; 300] j == 200
    /\ forall k, (k < length [100; 200; 200; 300])%nat ->
         at_ [100; 200; 200; 300] k == 200 -> (j <= k)%nat.
Proof.
  apply (nearest_gpx_point_exact_match [100; 200; 200; 300] 200).
  - simpl. repeat split; lra.
  - exists 2%nat. split; [simpl; lia|reflexivity].
Defined.

(** ** The coordinate encoder *)

Lemma Qfloor_bounds (x : Q) (z : Z) :
  inject_Z z <= x -> x < inject_Z z + 1 -> Qfloor x = z.
Proof.
  intros Hlo Hhi.
  pose proof (Qfloor_le x) as H1. pose proof (Qlt_floor x) as H2.
  rewrite inject_Z_plus in H2. change (inject_Z 1) with 1 in H2.
  assert (Ha : (Qfloor x < z + 1)%Z).
  { rewrite Zlt_Qlt, inject_Z_plus. change (inject_Z 1) with 1. lra. }
  assert (Hb : (z < Qfloor x + 1)%Z).
  { rewrite Zlt_Qlt, inject_Z_plus. change (inject_Z 1) with 1. lra. }
  lia.
Qed.

Lemma mod_nonzero (x y : Q) :
  ~ y == 0 -> Py.mod_ x y = Ok (x - y * inject_Z (Qfloor (x / y))).
Proof.
  intros Hy. unfold Py.mod_.
  rewrite (proj2 (Qeq_bool_false y 0) Hy). reflexivity.
Qed.

Lemma mod_zero (x y : Q) : y == 0 -> Py.mod_ x y = Raise ZeroDivisionError.
Proof.
  intros Hy. unfold Py.mod_. rewrite (Qeq_eq_bool _ _ Hy). reflexivity.
Qed.

Lemma int_inject_Z (z : Z) : Py.int (inject_Z z) = z.
Proof. unfold Py.int. simpl. apply Z.quot_1_r. Qed.

(** Below one degree the degrees are 0 and the first [%] raises. *)
Lemma to_degrees_minutes_seconds_small (dec : Q) (lon : bool) :
  Qabs dec < 1 -> to_degrees_minutes_seconds dec lon = Raise ZeroDivisionError.
Proof.
  intros H. unfold to_degrees_minutes_seconds, Py.floor.
  assert (E : Qfloor (Qabs dec) = 0%Z).
  { apply Qfloor_bounds.
    - change (inject_Z 0) with 0. apply Qabs_nonneg.
    - change (inject_Z 0) with 0. lra. }
  rewrite E. rewrite mod_zero by reflexivity. reflexivity.
Qed.

(** From one degree on, [dec % degrees] is the fractional part [f] of
    [abs(dec)] and the tuple is computed from it. *)
Lemma to_degrees_minutes_seconds_large (dec : Q) (lon : bool) :
  1 <= Qabs dec ->
  exists f,
    f == Qabs dec - inject_Z (Qfloor (Qabs dec))
    /\ 0 <= f /\ f < 1
    /\ to_degrees_minutes_seconds dec lon =
       Ok (Qfloor (Qabs dec),
           Qfloor (f * 3600 / 60),
           Qfloor ((f * 3600 - 60 * inject_Z (Qfloor (f * 3600 / 60)))
                   * inject_Z PRECISION),
           hemisphere dec lon).
Proof.
  intros H. set (d := Qabs dec) in *. set (g := Qfloor d).
  pose proof (Qfloor_le d) as H1. pose proof (Qlt_floor d) as H2.
  fold g in H1, H2. rewrite inject_Z_plus in H2. change (inject_Z 1) with 1 in H2.
  assert (Hg : (1 <= g)%Z).
  { assert (Hg' : (0 < g + 1)%Z).
    { rewrite Zlt_Qlt, inject_Z_plus. change (inject_Z 1) with 1.
      change (inject_Z 0) with 0. lra. }
    assert (Hne : g <> 0%Z).
    { intros E0. rewrite E0 in H2. change (inject_Z 0) with 0 in H2. lra. }
    lia. }
  assert (HgQ : 1 <= inject_Z g).
  { change 1 with (inject_Z 1). rewrite <- Zle_Qle. exact Hg. }
  assert (Hnz : ~ inject_Z g == 0) by lra.
  assert (Hquot : Qfloor (d / inject_Z g) = 1%Z).
  { apply Qfloor_bounds; change (inject_Z 1) with 1.
    - apply Qle_shift_div_l; lra.
    - apply Qlt_shift_div_r; lra. }
  exists (d - inject_Z g * inject_Z (Qfloor (d / inject_Z g))).
  rewrite Hquot. change (inject_Z 1) with 1.
  split; [ring|]. split; [lra|]. split; [lra|].
  unfold to_degrees_minutes_seconds, Py.floor. fold d. fold g.
  rewrite (mod_nonzero d (inject_Z g) Hnz). rewrite Hquot.
  change (inject_Z 1) with 1. unfold bind at 1.
  unfold Py.floordiv. change (Qeq_bool 60 0) with false. cbv iota.
  unfold bind at 1. unfold bind at 1.
  unfold Py.mod_. change (Qeq_bool 60 0) with false. cbv iota.
  unfold bind at 1. rewrite int_inject_Z. reflexivity.
Qed.

Lemma hemisphere_negative (dec : Q) (lon : bool) :
  dec < 0 -> hemisphere dec lon = if lon then "W"%string else "S"%string.
Proof.
  intros H. unfold hemisphere.
  rewrite (proj2 (Qlt_bool_iff dec 0) H). destruct lon; reflexivity.
Qed.

Lemma hemisphere_nonnegative (dec : Q) (lon : bool) :
  0 <= dec -> hemisphere dec lon = if lon then "E"%string else "N"%string.
Proof.
  intros H. unfold hemisphere.
  rewrite (proj2 (Qlt_bool_false dec 0) H). destruct lon; reflexivity.
Qed.

(** ** Claims about [to_degrees_minutes_seconds] *)

(** C2: what the code does.  On an angle below one degree the encoder
    raises [ZeroDivisionError]: it returns no tuple, so there is nothing
    from which [degrees + minutes/60 + (seconds/PRECISION)/3600] could
    give the angle back, within [1/PRECISION] arc-second or otherwise. *)
Theorem to_degrees_minutes_seconds_no_round_trip (dec : Q) (lon : bool) :
  Qabs dec < 1 ->
  to_degrees_minutes_seconds dec lon = Raise ZeroDivisionError
  /\ ~ (exists dms,
          to_degrees_minutes_seconds dec lon = Ok dms
          /\ Qabs (dec - dms_value dms) < (1 # 10000) / 3600).
Proof.
  intros H.
  pose proof (to_degrees_minutes_seconds_small dec lon H) as Hraise.
  split; [exact Hraise|].
  intros [dms [Hres _]]. rewrite Hraise in Hres. discriminate.
Qed.

Lemma to_degrees_minutes_seconds_no_round_trip_witness :
  to_degrees_minutes_seconds (1 # 2) false = Raise ZeroDivisionError
  /\ ~ (exists dms,
          to_degrees_minutes_seconds (1 # 2) false = Ok dms
          /\ Qabs ((1 # 2) - dms_value dms) < (1 # 10000) / 3600).
Proof.
  apply (to_degrees_minutes_seconds_no_round_trip (1 # 2) false).
  reflexivity.
Defined.

(** C3: what the code does.  The encoder raises [ZeroDivisionError], from
    [dec % degrees] with [degrees = 0], exactly on the angles of magnitude
    below one degree; on [dec = 1.0], [lon = False] it returns
    [(1, 0, 0, "N")]. *)
Theorem to_degrees_minutes_seconds_zero_division (dec : Q) (lon : bool) :
  (to_degrees_minutes_seconds dec lon = Raise ZeroDivisionError <-> Qabs dec < 1)
  /\ to_degrees_minutes_seconds (1 # 2) false = Raise ZeroDivisionError
  /\ to_degrees_minutes_seconds 1 false = Ok (1, 0, 0, "N"%string)%Z.
Proof.
  split; [|split; reflexivity].
  split.
  - intros Hraise. destruct (Qlt_le_dec (Qabs dec) 1) as [H|H]; [exact H|].
    destruct (to_degrees_minutes_seconds_large dec lon H) as [f [_ [_ [_ Hres]]]].
    rewrite Hres in Hraise. discriminate.
  - apply to_degrees_minutes_seconds_small.
Qed.

Lemma to_degrees_minutes_seconds_zero_division_witness :
  to_degrees_minutes_seconds (- (3 # 4)) true = Raise ZeroDivisionError.
Proof.
  apply (proj2 (proj1 (to_degrees_minutes_seconds_zero_division (- (3 # 4)) true))).
  reflexivity.
Defined.

(** C4: what the code does.  Whenever the encoder returns, its label
    follows the hemisphere rule (W and S below zero, E and N from zero
    on); on exactly zero the label line computes "E" for a longitude, but
    the encoder then raises [ZeroDivisionError] and returns no label. *)
Theorem to_degrees_minutes_seconds_hemisphere :
  (forall (dec : Q) (lon : bool) (d m s : Z) (ref : string),
      to_degrees_minutes_seconds dec lon = Ok (d, m, s, ref) ->
      (dec < 0 -> lon = true -> ref = "W"%string)
      /\ (dec < 0 -> lon = false -> ref = "S"%string)
      /\ (0 <= dec -> lon = true -> ref = "E"%string)
      /\ (0 <= dec -> lon = false -> ref = "N"%string))
  /\ hemisphere 0 true = "E"%string
  /\ to_degrees_minutes_seconds 0 true = Raise ZeroDivisionError.
Proof.
  split; [|split; reflexivity].
  intros dec lon d m s ref Hres.
  assert (Href : ref = hemisphere dec lon).
  { destruct (Qlt_le_dec (Qabs dec) 1) as [H|H].
    - rewrite (to_degrees_minutes_seconds_small dec lon H) in Hres. discriminate.
    - destruct (to_degrees_minutes_seconds_large dec lon H) as [f [_ [_ [_ Hres']]]].
      rewrite Hres' in Hres. injection Hres as _ _ _ E. symmetry. exact E. }
  subst ref. repeat split; intros Hd Hl; subst lon.
  - apply (hemisphere_negative dec true Hd).
  - apply (hemisphere_negative dec false Hd).
  - apply (hemisphere_nonnegative dec true Hd).
  - apply (hemisphere_nonnegative dec false Hd).
Qed.

Lemma to_degrees_minutes_seconds_hemisphere_witness :
  to_degrees_minutes_seconds (- (91 # 2)) false = Ok (45, 30, 0, "S"%string)%Z
  /\ - (91 # 2) < 0
  /\ "S"%string = "S"%string.
Proof.
  split; [reflexivity|]. split; [reflexivity|].
  refine (proj1 (proj2 (proj1 to_degrees_minutes_seconds_hemisphere
            (- (91 # 2)) false 45%Z 30%Z 0%Z "S"%string _)) _ _).
  - reflexivity.
  - reflexivity.
  - reflexivity.
Defined.

(** ** Claims about [build_gps_dict] *)

(** [int] truncates toward zero: it is the floor from zero on and the
    ceiling below. *)
Lemma int_truncates (x : Q) :
  Py.int x = if Qle_bool 0 x then Qfloor x else Qceiling x.
Proof.
  destruct x as [n d]. unfold Py.int, Qle_bool, Qceiling, Qfloor, Qopp. simpl.
  rewrite Z.mul_1_r. change (0 * Z.pos d)%Z with 0%Z.
  destruct (0 <=? n)%Z eqn:E.
  - apply Z.leb_le in E. apply Z.quot_div_nonneg; lia.
  - apply Z.leb_gt in E.
    rewrite <- (Z.opp_involutive n) at 1.
    rewrite Z.quot_opp_l by lia. f_equal.
    apply Z.quot_div_nonneg; lia.
Qed.

(** C9: for every elevation, [build_gps_dict] stores the altitude as the
    single rational [(int(elev), 1)], where [int] truncates toward zero
    (the floor from zero on, the ceiling below, so -1.5 gives -1 and not
    -2), and always sets [GPSAltitudeRef] to 0. *)
Theorem build_gps_dict_altitude (elev : Q) (lon_dms lat_dms : Z * Z * Z * string) :
  build_gps_dict elev lon_dms lat_dms !! GPSIFD.GPSAltitude
    = Some (Rationals [(Py.int elev, 1%Z)])
  /\ build_gps_dict elev lon_dms lat_dms !! GPSIFD.GPSAltitudeRef = Some (Int 0)
  /\ Py.int elev = (if Qle_bool 0 elev then Qfloor elev else Qceiling elev)
  /\ Py.int (- (3 # 2)) = (-1)%Z
  /\ Qfloor (- (3 # 2)) = (-2)%Z.
Proof.
  destruct lon_dms as [[[lon0 lon1] lon2] lon3].
  destruct lat_dms as [[[lat0 lat1] lat2] lat3].
  unfold build_gps_dict, GPSIFD.GPSAltitude, GPSIFD.GPSAltitudeRef,
    GPSIFD.GPSLongitude, GPSIFD.GPSLongitudeRef, GPSIFD.GPSLatitude,
    GPSIFD.GPSLatitudeRef.
  split; [|split; [|split; [apply int_truncates|split; reflexivity]]].
  - repeat (rewrite lookup_insert_ne by discriminate).
    apply lookup_insert_eq.
  - repeat (rewrite lookup_insert_ne by discriminate).
    apply lookup_singleton_eq.
Qed.

(** ** Claims about [parse_gpx] *)

Lemma parse_points_rows (rows : list (Q * Q * Q * Q)) :
  forall times coords,
    fold_left parse_point (map point_of_row rows) (Ok (times, coords))
    = Ok (times ++ map timestamp_of_row rows, coords ++ map sample_of_row rows).
Proof.
  induction rows as [|[[[t e] lon] lat] rows IH]; intros times coords; simpl.
  - rewrite !app_nil_r. reflexivity.
  - rewrite IH. rewrite <- !app_assoc. reflexivity.
Qed.

(** C8, as amended: [parse_gpx] checks no order.  From a file with a
    [track_points] layer it returns the timestamps and the samples of the
    rows in the order of the rows, whatever that order is. *)
Theorem parse_gpx_keeps_row_order (names : list string) (rows : list (Q * Q * Q * Q)) :
  In "track_points"%string names ->
  parse_gpx (Some {| layers := names; track_points := map point_of_row rows |})
  = Ok (map timestamp_of_row rows, map sample_of_row rows).
Proof.
  intros Hin. unfold parse_gpx. simpl layers. simpl track_points.
  assert (E : existsb (String.eqb "track_points") names = true).
  { apply existsb_exists. exists "track_points"%string.
    split; [exact Hin|apply String.eqb_refl]. }
  rewrite E. simpl negb. cbv iota.
  apply (parse_points_rows rows [] []).
Qed.

Lemma parse_gpx_keeps_row_order_witness :
  parse_gpx (Some {| layers := ["waypoints"; "track_points"]%string;
                     track_points := map point_of_row
                       [(100, 10, 1, 2); (200, 20, 11 # 10, 21 # 10)] |})
  = Ok (map timestamp_of_row [(100, 10, 1, 2); (200, 20, 11 # 10, 21 # 10)],
        map sample_of_row [(100, 10, 1, 2); (200, 20, 11 # 10, 21 # 10)]).
Proof.
  apply (parse_gpx_keeps_row_order ["waypoints"; "track_points"]%string
           [(100, 10, 1, 2); (200, 20, 11 # 10, 21 # 10)]).
  simpl. right. left. reflexivity.
Defined.

(** C8 as it is written fails: rows in decreasing order of time are
    accepted. *)
Lemma parse_gpx_accepts_unsorted :
  ~ nondecreasing [200; 100]
  /\ parse_gpx (Some {| layers := ["track_points"]%string;
                        track_points := map point_of_row
                          [(200, 20, 11 # 10, 21 # 10); (100, 10, 1, 2)] |})
     = Ok ([200; 100], [(20, 11 # 10, 21 # 10); (10, 1, 2)]).
Proof.
  split; [|reflexivity].
  simpl. intros [H _]. lra.
Qed.

(** ** Claims about the batch loop of [main] *)

Section DriverProperties.

Variables image exif bytes : Type.
Variable piexif_load : image -> outcome exif.
Variable date_time_original : exif -> outcome Q.
Variable set_gps : exif -> gmap Z exif_value -> exif.
Variable piexif_dump : exif -> outcome bytes.
Variable piexif_insert : bytes -> image -> outcome unit.

Local Abbreviation run :=
  (geotag image exif bytes piexif_load date_time_original set_gps
     piexif_dump piexif_insert).
Local Abbreviation run_all :=
  (geotag_all image exif bytes piexif_load date_time_original set_gps
     piexif_dump piexif_insert).

(** The loop goes through a run of images that succeed and records each
    of them. *)
Lemma geotag_all_through (times : list Q) (coords : list (Q * Q * Q)) (offset : Z)
  (pre : list image) :
  forall rest written,
    Forall (fun im => exists b, run times coords offset im = Ok b) pre ->
    exists w, map fst w = pre
      /\ run_all times coords offset (pre ++ rest) written
         = run_all times coords offset rest (written ++ w).
Proof.
  induction pre as [|im pre IH]; intros rest written Hpre.
  - exists []. split; [reflexivity|]. rewrite app_nil_r. reflexivity.
  - inversion Hpre as [|x l [b Hb] Hl]; subst.
    destruct (IH rest (written ++ [(im, b)]) Hl) as [w [Hw Hrun]].
    exists ((im, b) :: w). split; [simpl; rewrite Hw; reflexivity|].
    simpl. rewrite Hb. rewrite Hrun. rewrite <- app_assoc. reflexivity.
Qed.

(** With no track point, no image can be matched. *)
Lemma geotag_empty_series (coords : list (Q * Q * Q)) (offset : Z) (im : image) :
  exists e, run [] coords offset im = Raise e
    /\ forall ex t, piexif_load im = Ok ex -> date_time_original ex = Ok t ->
         e = IndexError.
Proof.
  unfold geotag.
  destruct (piexif_load im) as [ex|e] eqn:Eload; cbn [bind].
  - destruct (date_time_original ex) as [t|e] eqn:Edate; cbn [bind].
    + exists IndexError. split; [reflexivity|]. intros; reflexivity.
    + exists e. split; [reflexivity|].
      intros ex' t' Hex Ht. injection Hex as <-. congruence.
  - exists e. split; [reflexivity|]. intros ex' t' Hex. discriminate.
Qed.


End DriverProperties.



(** * Further properties *)

(** ** The matcher on arbitrary input *)

Lemma bisect_left_bounds (fuel : nat) (a : list Q) (v : Q) :
  forall lo hi, (lo <= hi)%nat ->
    (lo <= Np.bisect_left fuel a v lo hi <= hi)%nat.
Proof.
  induction fuel as [|fuel IH]; intros lo hi Hb; [simpl; lia|].
  rewrite bisect_left_step.
  destruct (lo <? hi)%nat eqn:Elt; [|lia].
  apply Nat.ltb_lt in Elt.
  assert (Hdiv : ((hi - lo) / 2 < hi - lo)%nat) by (apply Nat.div_lt; lia).
  destruct (Py.Qlt_bool _ v).
  - pose proof (IH (S (lo + (hi - lo) / 2)) hi ltac:(lia)). lia.
  - pose proof (IH lo (lo + (hi - lo) / 2)%nat ltac:(lia)). lia.
Qed.

(** X1: on every input, sorted or not, the matcher either raises
    [IndexError] or returns an index between -1 and [len(times) - 1]; it
    raises nothing else and never returns an index past the end. *)
Theorem nearest_gpx_point_index_bounds (times : list Q) (q : Q) :
  nearest_gpx_point times q = Raise IndexError
  \/ exists i, nearest_gpx_point times q = Ok i
       /\ (-1 <= i < Z.of_nat (length times))%Z.
Proof.
  unfold nearest_gpx_point.
  pose proof (bisect_left_bounds (length times) times q 0 (length times)
                ltac:(lia)) as Hr.
  fold (Np.searchsorted times q) in Hr.
  destruct (getitem_cases times (Z.of_nat (Np.searchsorted times q)))
    as [E|[[x E] Hi]]; rewrite E; cbn [bind].
  - left. reflexivity.
  - right. destruct (_ || _).
    + eexists. split; [reflexivity|lia].
    + eexists. split; [reflexivity|lia].
Qed.

(** X2: on a non-decreasing series of length at least 1 the matcher
    raises exactly for the queries above the last timestamp, and returns
    -1 exactly for the queries below the first one. *)
Theorem nearest_gpx_point_outside_iff (times : list Q) (q : Q) :
  nondecreasing times -> (1 <= length times)%nat ->
  (nearest_gpx_point times q = Raise IndexError <-> last_time times < q)
  /\ (nearest_gpx_point times q = Ok (-1)%Z <-> q < first_time times).
Proof.
  intros Hs Hn.
  assert (Hin : first_time times <= q <= last_time times ->
                exists i, nearest_gpx_point times q = Ok (Z.of_nat i)).
  { intros Hq.
    destruct (nearest_gpx_point_closest times q Hs Hn Hq) as [i [Hres _]].
    exists i. exact Hres. }
  split; split.
  - intros Hraise.
    destruct (Qlt_le_dec (last_time times) q) as [H|H]; [exact H|].
    destruct (Qlt_le_dec q (first_time times)) as [H'|H'].
    + rewrite (nearest_gpx_point_below times q Hs Hn H') in Hraise. discriminate.
    + destruct (Hin (conj H' H)) as [i Hi]. rewrite Hi in Hraise. discriminate.
  - apply nearest_gpx_point_above; assumption.
  - intros Hres.
    destruct (Qlt_le_dec q (first_time times)) as [H|H]; [exact H|].
    destruct (Qlt_le_dec (last_time times) q) as [H'|H'].
    + rewrite (nearest_gpx_point_above times q Hs Hn H') in Hres. discriminate.
    + destruct (Hin (conj H H')) as [i Hi]. rewrite Hi in Hres.
      injection Hres as E. lia.
  - apply nearest_gpx_point_below; assumption.
Qed.

Lemma nearest_gpx_point_outside_iff_witness :
  (nearest_gpx_point [100; 200; 300] 301 = Raise IndexError
   <-> last_time [100; 200; 300] < 301)
  /\ (nearest_gpx_point [100; 200; 300] 301 = Ok (-1)%Z
      <-> 301 < first_time [100; 200; 300]).
Proof.
  apply (nearest_gpx_point_outside_iff [100; 200; 300] 301).
  - simpl. repeat split; lra.
  - simpl. lia.
Defined.

(** X3: on whole-second timestamps, a query strictly between two
    adjacent timestamps is sent to the later one from their midpoint on,
    and to the earlier one before it. *)
Theorem nearest_gpx_point_between (times : list Q) (q : Q) (k : nat) :
  whole_seconds times ->
  nondecreasing times -> (S k < length times)%nat ->
  at_ times k < q -> q < at_ times (S k) ->
  ((at_ times k + at_ times (S k)) / 2 <= q ->
     nearest_gpx_point times q = Ok (Z.of_nat (S k)))
  /\ (q < (at_ times k + at_ times (S k)) / 2 ->
        nearest_gpx_point times q = Ok (Z.of_nat k)).
Proof.
  intros _ Hs Hk Hlo Hhi.
  assert (Hrange : first_time times <= q <= last_time times).
  { split.
    - apply Qle_trans with (at_ times k); [|lra].
      apply nondecreasing_at; [exact Hs|lia].
    - apply Qle_trans with (at_ times (S k)); [lra|].
      apply nondecreasing_at; [exact Hs|lia]. }
  destruct (nearest_gpx_point_cases times q Hs ltac:(lia) Hrange) as [Hr [Hsplit Hc]].
  set (r := Np.searchsorted times q) in *.
  assert (Er : r = S k).
  { apply (insertion_point_between times q r k); try assumption; [lia|lra]. }
  rewrite Er in Hc. replace (S k - 1)%nat with k in Hc by lia.
  destruct Hc as [[Heq _]|[_ [_ [_ [[Hmid Hres]|[Hmid Hres]]]]]].
  - lra.
  - split; [intros _; exact Hres|]. intros H. lra.
  - split; [|intros _; exact Hres]. intros H. lra.
Qed.

Lemma nearest_gpx_point_between_witness :
  ((at_ [100; 200; 300] 1 + at_ [100; 200; 300] 2) / 2 <= 249 ->
     nearest_gpx_point [100; 200; 300] 249 = Ok (Z.of_nat 2))
  /\ (249 < (at_ [100; 200; 300] 1 + at_ [100; 200; 300] 2) / 2 ->
        nearest_gpx_point [100; 200; 300] 249 = Ok (Z.of_nat 1)).
Proof.
  apply (nearest_gpx_point_between [100; 200; 300] 249 1).
  - repeat constructor.
    + exists 100%Z. split; [apply Z.leb_le; reflexivity|reflexivity].
    + exists 200%Z. split; [apply Z.leb_le; reflexivity|reflexivity].
    + exists 300%Z. split; [apply Z.leb_le; reflexivity|reflexivity].
  - simpl. repeat split; lra.
  - simpl. lia.
  - unfold at_. simpl. lra.
  - unfold at_. simpl. lra.
Defined.

(** X4: inside the track the matcher is monotone: a later query never
    gets an earlier index. *)
Theorem nearest_gpx_point_monotone (times : list Q) (q1 q2 : Q) :
  nondecreasing times -> (1 <= length times)%nat ->
  first_time times <= q1 -> q1 <= q2 -> q2 <= last_time times ->
  exists i1 i2,
    nearest_gpx_point times q1 = Ok i1
    /\ nearest_gpx_point times q2 = Ok i2
    /\ (i1 <= i2)%Z.
Proof.
  intros Hs Hn Hfirst H12 Hlast.
  assert (Hq1 : first_time times <= q1 <= last_time times) by (split; lra).
  assert (Hq2 : first_time times <= q2 <= last_time times) by (split; lra).
  destruct (nearest_gpx_point_cases times q1 Hs Hn Hq1) as [Hr1 [[Hlt1 Hge1] Hc1]].
  destruct (nearest_gpx_point_cases times q2 Hs Hn Hq2) as [Hr2 [[Hlt2 Hge2] Hc2]].
  remember (Np.searchsorted times q1) as r1 eqn:E1 in *.
  remember (Np.searchsorted times q2) as r2 eqn:E2 in *.
  clear E1 E2.
  assert (Hr : (r1 <= r2)%nat).
  { destruct (Nat.le_gt_cases r1 r2) as [H|H]; [exact H|]. exfalso.
    pose proof (Hlt1 r2 H) as Ha.
    pose proof (Hge2 r2 ltac:(lia)) as Hb. lra. }
  assert (Hup1 : exists i1, nearest_gpx_point times q1 = Ok i1
                   /\ (i1 <= Z.of_nat r1)%Z).
  { destruct Hc1 as [[_ Hres]|[_ [_ [_ [[_ Hres]|[_ Hres]]]]]];
      eexists; (split; [exact Hres|lia]). }
  destruct Hc2 as [[_ Hres2]|[Hr2' [Hlo2 [Hhi2 [[_ Hres2]|[Hmid2 Hres2]]]]]].
  - destruct Hup1 as [i1 [Hres1 Hi1]].
    exists i1, (Z.of_nat r2). repeat split; [exact Hres1|exact Hres2|lia].
  - destruct Hup1 as [i1 [Hres1 Hi1]].
    exists i1, (Z.of_nat r2). repeat split; [exact Hres1|exact Hres2|lia].
  - destruct (Nat.eq_dec r1 r2) as [E|E].
    + subst r2.
      destruct Hc1 as [[Heq _]|[_ [_ [_ [[Hmid1 _]|[_ Hres1]]]]]].
      * exfalso. lra.
      * exfalso. rewrite Qhalf in Hmid1, Hmid2. lra.
      * exists (Z.of_nat (r1 - 1)), (Z.of_nat (r1 - 1)).
        repeat split; [exact Hres1|exact Hres2|lia].
    + destruct Hup1 as [i1 [Hres1 Hi1]].
      exists i1, (Z.of_nat (r2 - 1)). repeat split; [exact Hres1|exact Hres2|lia].
Qed.

Lemma nearest_gpx_point_monotone_witness :
  exists i1 i2,
    nearest_gpx_point [100; 200; 300] 149 = Ok i1
    /\ nearest_gpx_point [100; 200; 300] 150 = Ok i2
    /\ (i1 <= i2)%Z.
Proof.
  apply (nearest_gpx_point_monotone [100; 200; 300] 149 150).
  - simpl. repeat split; lra.
  - simpl. lia.
  - unfold first_time, at_. simpl. lra.
  - lra.
  - unfold last_time, at_. simpl. lra.
Defined.

(** ** The encoder from one degree on *)

(** X5: when the encoder returns, the degrees are [floor(abs(dec))] and
    at least 1, the minutes lie in [0, 59] and the scaled seconds in
    [0, 60 * PRECISION). *)
Theorem to_degrees_minutes_seconds_ranges (dec : Q) (lon : bool)
  (d m s : Z) (ref : string) :
  to_degrees_minutes_seconds dec lon = Ok (d, m, s, ref) ->
  d = Qfloor (Qabs dec) /\ (1 <= d)%Z
  /\ (0 <= m <= 59)%Z
  /\ (0 <= s < 60 * PRECISION)%Z.
Proof.
  intros Hres.
  destruct (Qlt_le_dec (Qabs dec) 1) as [H|H].
  { rewrite (to_degrees_minutes_seconds_small dec lon H) in Hres. discriminate. }
  destruct (to_degrees_minutes_seconds_large dec lon H) as [f [Hf [Hf0 [Hf1 Hres']]]].
  rewrite Hres' in Hres.
  assert (Ed : Qfloor (Qabs dec) = d) by congruence.
  assert (Em : Qfloor (f * 3600 / 60) = m) by congruence.
  assert (Es : Qfloor ((f * 3600 - 60 * inject_Z (Qfloor (f * 3600 / 60)))
                       * inject_Z PRECISION) = s) by congruence.
  clear Hres.
  assert (E60 : f * 3600 / 60 == f * 60) by field.
  rewrite (Qfloor_comp _ _ E60) in Em, Es.
  pose proof (Qfloor_le (f * 60)) as Hm1. pose proof (Qlt_floor (f * 60)) as Hm2.
  rewrite Em in Hm1, Hm2. rewrite Em in Es.
  rewrite inject_Z_plus in Hm2. change (inject_Z 1) with 1 in Hm2.
  set (x := (f * 3600 - 60 * inject_Z m) * inject_Z PRECISION) in *.
  pose proof (Qfloor_le x) as Hs1. pose proof (Qlt_floor x) as Hs2.
  rewrite Es in Hs1, Hs2.
  rewrite inject_Z_plus in Hs2. change (inject_Z 1) with 1 in Hs2.
  unfold x, PRECISION in Hs1, Hs2. change (inject_Z 10000) with 10000 in Hs1, Hs2.
  split; [symmetry; exact Ed|].
  split.
  { rewrite <- Ed. pose proof (Qlt_floor (Qabs dec)) as Hd.
    rewrite inject_Z_plus in Hd. change (inject_Z 1) with 1 in Hd.
    assert (Hd' : (0 < Qfloor (Qabs dec) + 1)%Z).
    { rewrite Zlt_Qlt, inject_Z_plus. change (inject_Z 1) with 1.
      change (inject_Z 0) with 0. lra. }
    assert (Hne : Qfloor (Qabs dec) <> 0%Z).
    { intros E0. rewrite E0 in Hd. change (inject_Z 0) with 0 in Hd. lra. }
    lia. }
  split.
  - split.
    + assert (Hz : (-1 < m)%Z).
      { rewrite Zlt_Qlt. change (inject_Z (-1)) with (-1). lra. }
      lia.
    + assert (Hz : (m < 60)%Z).
      { rewrite Zlt_Qlt. change (inject_Z 60) with 60. lra. }
      lia.
  - unfold PRECISION. split.
    + assert (Hz : (-1 < s)%Z).
      { rewrite Zlt_Qlt. change (inject_Z (-1)) with (-1). lra. }
      lia.
    + assert (Hz : (s < 600000)%Z).
      { rewrite Zlt_Qlt. change (inject_Z 600000) with 600000. lra. }
      lia.
Qed.

Lemma to_degrees_minutes_seconds_ranges_witness :
  123%Z = Qfloor (Qabs (247 # 2)) /\ (1 <= 123)%Z
  /\ (0 <= 30 <= 59)%Z
  /\ (0 <= 0 < 60 * PRECISION)%Z.
Proof.
  apply (to_degrees_minutes_seconds_ranges (247 # 2) true
           123 30 0 "E"%string).
  reflexivity.
Defined.

Lemma Qabs_opp_eq (x : Q) : Qabs (- x) = Qabs x.
Proof. destruct x as [n d]. unfold Qabs, Qopp. rewrite Z.abs_opp. reflexivity. Qed.

(** X7: degrees, minutes and seconds depend on the magnitude of the
    angle only: the opposite angle, and either value of the longitude
    flag, give the same three numbers. *)
Theorem to_degrees_minutes_seconds_magnitude_only (dec : Q) (lon lon' : bool)
  (d m s : Z) (ref : string) :
  to_degrees_minutes_seconds dec lon = Ok (d, m, s, ref) ->
  to_degrees_minutes_seconds (- dec) lon' = Ok (d, m, s, hemisphere (- dec) lon')
  /\ to_degrees_minutes_seconds dec lon' = Ok (d, m, s, hemisphere dec lon').
Proof.
  intros Hres.
  assert (Hshape : forall x l,
            to_degrees_minutes_seconds x l =
            match to_degrees_minutes_seconds (Qabs x) true with
            | Ok (d0, m0, s0, _) => Ok (d0, m0, s0, hemisphere x l)
            | Raise e => Raise e
            end).
  { intros x l. unfold to_degrees_minutes_seconds.
    assert (Eabs : Qabs (Qabs x) = Qabs x).
    { destruct x as [n dn]. unfold Qabs. rewrite Z.abs_idemp. reflexivity. }
    rewrite Eabs.
    destruct (Py.mod_ (Qabs x) (inject_Z (Py.floor (Qabs x)))); cbn [bind];
      [|reflexivity].
    destruct (Py.floordiv (a * 3600) 60); cbn [bind]; [|reflexivity].
    destruct (Py.mod_ (a * 3600) 60); cbn [bind]; reflexivity. }
  rewrite (Hshape dec lon) in Hres.
  rewrite (Hshape (- dec) lon'), (Hshape dec lon'), Qabs_opp_eq.
  destruct (to_degrees_minutes_seconds (Qabs dec) true) as [[[[d0 m0] s0] r0]|e];
    [|discriminate].
  injection Hres as -> -> -> _. split; reflexivity.
Qed.

Lemma to_degrees_minutes_seconds_magnitude_only_witness :
  to_degrees_minutes_seconds (- - (91 # 2)) true
    = Ok (45, 30, 0, hemisphere (- - (91 # 2)) true)%Z
  /\ to_degrees_minutes_seconds (- (91 # 2)) true
     = Ok (45, 30, 0, hemisphere (- (91 # 2)) true)%Z.
Proof.
  apply (to_degrees_minutes_seconds_magnitude_only (- (91 # 2)) false true
           45 30 0 "S"%string).
  reflexivity.
Defined.

(** X8: a whole number of degrees, at least one in magnitude, is encoded
    with zero minutes and zero seconds. *)
Theorem to_degrees_minutes_seconds_whole (z : Z) (lon : bool) :
  (1 <= Z.abs z)%Z ->
  to_degrees_minutes_seconds (inject_Z z) lon
  = Ok (Z.abs z, 0%Z, 0%Z, hemisphere (inject_Z z) lon).
Proof.
  intros Hz.
  assert (Eabs : Qabs (inject_Z z) = inject_Z (Z.abs z)) by reflexivity.
  assert (H : 1 <= Qabs (inject_Z z)).
  { rewrite Eabs. change 1 with (inject_Z 1). rewrite <- Zle_Qle. exact Hz. }
  destruct (to_degrees_minutes_seconds_large (inject_Z z) lon H)
    as [f [Hf [_ [_ Hres]]]].
  rewrite Eabs, Qfloor_Z in Hf, Hres.
  assert (Ef : f == 0) by lra.
  assert (Em : f * 3600 / 60 == 0) by (rewrite Ef; reflexivity).
  rewrite (Qfloor_comp _ _ Em) in Hres.
  assert (Es : (f * 3600 - 60 * inject_Z (Qfloor 0)) * inject_Z PRECISION == 0)
    by (rewrite Ef; reflexivity).
  rewrite (Qfloor_comp _ _ Es) in Hres.
  exact Hres.
Qed.

Lemma to_degrees_minutes_seconds_whole_witness :
  to_degrees_minutes_seconds (inject_Z (-120)) true
  = Ok (Z.abs (-120), 0%Z, 0%Z, hemisphere (inject_Z (-120)) true).
Proof.
  apply (to_degrees_minutes_seconds_whole (-120) true). simpl. lia.
Defined.

(** X9: the label belongs to the axis: a longitude is labelled E or W,
    a latitude N or S, whatever the angle. *)
Theorem to_degrees_minutes_seconds_axis (dec : Q) (lon : bool)
  (d m s : Z) (ref : string) :
  to_degrees_minutes_seconds dec lon = Ok (d, m, s, ref) ->
  if lon then ref = "E"%string \/ ref = "W"%string
  else ref = "N"%string \/ ref = "S"%string.
Proof.
  intros Hres.
  assert (Href : ref = hemisphere dec lon).
  { destruct (Qlt_le_dec (Qabs dec) 1) as [H|H].
    - rewrite (to_degrees_minutes_seconds_small dec lon H) in Hres. discriminate.
    - destruct (to_degrees_minutes_seconds_large dec lon H) as [f [_ [_ [_ Hres']]]].
      rewrite Hres' in Hres. congruence. }
  subst ref.
  destruct (Qlt_le_dec dec 0) as [H|H].
  - rewrite (hemisphere_negative dec lon H). destruct lon; right; reflexivity.
  - rewrite (hemisphere_nonnegative dec lon H). destruct lon; left; reflexivity.
Qed.

Lemma to_degrees_minutes_seconds_axis_witness :
  "S"%string = "N"%string \/ "S"%string = "S"%string.
Proof.
  apply (to_degrees_minutes_seconds_axis (- (91 # 2)) false 45 30 0 "S"%string).
  reflexivity.
Defined.

(** ** The GPS record *)

(** X10: the record holds the longitude and the latitude as three
    rationals, degrees and minutes over 1 and seconds over [PRECISION],
    each with its label. *)
Theorem build_gps_dict_coordinates (elev : Q)
  (lon0 lon1 lon2 : Z) (lon3 : string) (lat0 lat1 lat2 : Z) (lat3 : string) :
  let gps := build_gps_dict elev (lon0, lon1, lon2, lon3) (lat0, lat1, lat2, lat3) in
  gps !! GPSIFD.GPSLongitude
    = Some (Rationals [(lon0, 1%Z); (lon1, 1%Z); (lon2, PRECISION)])
  /\ gps !! GPSIFD.GPSLongitudeRef = Some (Text lon3)
  /\ gps !! GPSIFD.GPSLatitude
     = Some (Rationals [(lat0, 1%Z); (lat1, 1%Z); (lat2, PRECISION)])
  /\ gps !! GPSIFD.GPSLatitudeRef = Some (Text lat3).
Proof.
  unfold build_gps_dict, GPSIFD.GPSAltitude, GPSIFD.GPSAltitudeRef,
    GPSIFD.GPSLongitude, GPSIFD.GPSLongitudeRef, GPSIFD.GPSLatitude,
    GPSIFD.GPSLatitudeRef.
  cbv zeta.
  repeat split;
    repeat (rewrite lookup_insert_ne by discriminate);
    apply lookup_insert_eq.
Qed.

(** X11: the record has the six GPS tags and no other key. *)
Theorem build_gps_dict_keys (elev : Q) (lon_dms lat_dms : Z * Z * Z * string)
  (k : Z) :
  is_Some (build_gps_dict elev lon_dms lat_dms !! k) <-> (1 <= k <= 6)%Z.
Proof.
  destruct lon_dms as [[[lon0 lon1] lon2] lon3].
  destruct lat_dms as [[[lat0 lat1] lat2] lat3].
  unfold build_gps_dict, GPSIFD.GPSAltitude, GPSIFD.GPSAltitudeRef,
    GPSIFD.GPSLongitude, GPSIFD.GPSLongitudeRef, GPSIFD.GPSLatitude,
    GPSIFD.GPSLatitudeRef.
  rewrite <- elem_of_dom.
  rewrite !dom_insert_L, dom_singleton_L.
  rewrite !elem_of_union, !elem_of_singleton. lia.
Qed.

Lemma build_gps_dict_keys_witness :
  is_Some (build_gps_dict 10 (1, 0, 0, "E"%string)%Z (2, 0, 0, "N"%string)%Z
           !! GPSIFD.GPSAltitude).
Proof.
  apply (proj2 (build_gps_dict_keys 10 (1, 0, 0, "E"%string)%Z
                  (2, 0, 0, "N"%string)%Z GPSIFD.GPSAltitude)).
  unfold GPSIFD.GPSAltitude. lia.
Defined.

(** ** The track log reader *)

Lemma parse_points_raise (pts : list track_point) (e : exn) :
  fold_left parse_point pts (Raise e) = Raise e.
Proof. induction pts as [|p pts IH]; simpl; [reflexivity|exact IH]. Qed.

Lemma parse_points_lengths (pts : list track_point) :
  forall ts cs ts' cs',
    fold_left parse_point pts (Ok (ts, cs)) = Ok (ts', cs') ->
    length ts' = (length ts + length pts)%nat
    /\ length cs' = (length cs + length pts)%nat.
Proof.
  induction pts as [|p pts IH]; intros ts cs ts' cs' H; simpl in H.
  - injection H as <- <-. simpl. lia.
  - destruct (time p) as [t|e] eqn:Et; simpl in H.
    + apply IH in H. rewrite !length_app in H. simpl in *. lia.
    + rewrite parse_points_raise in H. discriminate.
Qed.

(** X12: whatever [parse_gpx] returns, the times and the samples have
    the same length; with a [track_points] layer that length is the
    number of track points. *)
Theorem parse_gpx_parallel (gpx_path : option gpx_file) (ts : list Q)
  (cs : list (Q * Q * Q)) :
  parse_gpx gpx_path = Ok (ts, cs) ->
  length ts = length cs
  /\ forall f, gpx_path = Some f -> In "track_points"%string (layers f) ->
       length ts = length (track_points f).
Proof.
  intros H. unfold parse_gpx in H.
  destruct gpx_path as [f|].
  - destruct (existsb (String.eqb "track_points") (layers f)) eqn:E; simpl in H.
    + apply parse_points_lengths in H. simpl in H. split; [lia|].
      intros f' Hf _. injection Hf as <-. lia.
    + injection H as <- <-. split; [reflexivity|].
      intros f' Hf Hin. injection Hf as <-. exfalso.
      assert (E' : existsb (String.eqb "track_points") (layers f) = true).
      { apply existsb_exists. exists "track_points"%string.
        split; [exact Hin|apply String.eqb_refl]. }
      congruence.
  - injection H as <- <-. split; [reflexivity|]. intros f Hf. discriminate.
Qed.

Lemma parse_gpx_parallel_witness :
  length [200; 100] = length [(20, 11 # 10, 21 # 10); (10, 1, 2)]
  /\ forall f,
       Some {| layers := ["track_points"]%string;
               track_points := map point_of_row
                 [(200, 20, 11 # 10, 21 # 10); (100, 10, 1, 2)] |} = Some f ->
       In "track_points"%string (layers f) ->
       length [200; 100] = length (track_points f).
Proof.
  apply (parse_gpx_parallel
           (Some {| layers := ["track_points"]%string;
                    track_points := map point_of_row
                      [(200, 20, 11 # 10, 21 # 10); (100, 10, 1, 2)] |})).
  reflexivity.
Defined.

Lemma parse_points_ok (pre : list track_point) :
  Forall (fun p => exists t, time p = Ok t) pre ->
  forall ts cs, exists ts' cs',
    fold_left parse_point pre (Ok (ts, cs)) = Ok (ts', cs').
Proof.
  induction 1 as [|p pre [t Ht] _ IH]; intros ts cs; simpl.
  - exists ts, cs. reflexivity.
  - rewrite Ht. simpl. apply IH.
Qed.

(** X13: one track point whose time cannot be parsed makes the whole
    parse fail with that exception, the first such point deciding; no
    partial track is returned. *)
Theorem parse_gpx_malformed_time (names : list string)
  (pre : list track_point) (p : track_point) (post : list track_point) (e : exn) :
  In "track_points"%string names ->
  Forall (fun x => exists t, time x = Ok t) pre ->
  time p = Raise e ->
  parse_gpx (Some {| layers := names; track_points := pre ++ p :: post |})
  = Raise e.
Proof.
  intros Hin Hpre Hp. unfold parse_gpx. simpl layers. simpl track_points.
  assert (E : existsb (String.eqb "track_points") names = true).
  { apply existsb_exists. exists "track_points"%string.
    split; [exact Hin|apply String.eqb_refl]. }
  rewrite E. simpl negb. cbv iota.
  rewrite fold_left_app.
  destruct (parse_points_ok pre Hpre [] []) as [ts' [cs' Hok]].
  rewrite Hok. simpl. rewrite Hp. simpl. apply parse_points_raise.
Qed.

Lemma parse_gpx_malformed_time_witness :
  parse_gpx (Some {| layers := ["track_points"]%string;
                     track_points :=
                       [point_of_row (100, 10, 1, 2)]
                       ++ {| time := Raise ValueError; ele := 20;
                             coordinates := (11 # 10, 21 # 10) |}
                          :: [point_of_row (300, 30, 12 # 10, 22 # 10)] |})
  = Raise ValueError.
Proof.
  apply (parse_gpx_malformed_time ["track_points"]%string
           [point_of_row (100, 10, 1, 2)]
           {| time := Raise ValueError; ele := 20;
              coordinates := (11 # 10, 21 # 10) |}
           [point_of_row (300, 30, 12 # 10, 22 # 10)] ValueError).
  - simpl. left. reflexivity.
  - constructor; [|constructor]. exists 100. reflexivity.
  - reflexivity.
Defined.

(** ** The glob pattern *)

Lemma lower_ascii_idempotent (c : ascii) :
  lower_ascii (lower_ascii c) = lower_ascii c.
Proof.
  destruct c as [[] [] [] [] [] [] [] []]; reflexivity.
Qed.

Lemma lower_idempotent (s : string) : lower (lower s) = lower s.
Proof.
  induction s as [|c s IH]; simpl; [reflexivity|].
  rewrite lower_ascii_idempotent, IH. reflexivity.
Qed.

(** X14: [get_pattern] ignores the case of the extension: an extension
    and its lower-case form give the same result. *)
Theorem get_pattern_case_insensitive (ext : string) :
  get_pattern (lower ext) = get_pattern ext
  /\ get_pattern "JPG" = get_pattern "jpg"
  /\ get_pattern "Tiff" = get_pattern "tiff".
Proof.
  split; [|split; reflexivity].
  unfold get_pattern. rewrite lower_idempotent. reflexivity.
Qed.

(** X15: [get_pattern] succeeds exactly on the five spellings jpg, jpeg,
    webp, tif and tiff (in any case), with one of three patterns, and
    raises [ValueError] on everything else. *)
Theorem get_pattern_supported (ext : string) :
  (In (lower ext) ["jpg"; "jpeg"; "webp"; "tif"; "tiff"]%string ->
     exists p, get_pattern ext = Ok p
       /\ In p ["*.[jpJP]*"; "*.[webWEB]*"; "*.[tifTIF]*"]%string)
  /\ (~ In (lower ext) ["jpg"; "jpeg"; "webp"; "tif"; "tiff"]%string ->
        get_pattern ext = Raise ValueError).
Proof.
  unfold get_pattern. simpl existsb. simpl In.
  destruct (String.eqb_spec (lower ext) "jpg") as [E1|E1];
  destruct (String.eqb_spec (lower ext) "jpeg") as [E2|E2];
  destruct (String.eqb_spec (lower ext) "webp") as [E3|E3];
  destruct (String.eqb_spec (lower ext) "tif") as [E4|E4];
  destruct (String.eqb_spec (lower ext) "tiff") as [E5|E5];
  simpl; split;
    try (intros _; eexists; split; [reflexivity|tauto]);
    try (intros H; exfalso; apply H; auto 10; fail);
    try (intros H; reflexivity);
    intros H; exfalso; intuition congruence.
Qed.

Lemma get_pattern_supported_witness :
  exists p, get_pattern "JPEG" = Ok p
    /\ In p ["*.[jpJP]*"; "*.[webWEB]*"; "*.[tifTIF]*"]%string.
Proof.
  apply (proj1 (get_pattern_supported "JPEG")).
  simpl. right. left. reflexivity.
Defined.

(** ** The driver *)

(** X16: the three offset options are mutually exclusive on the command
    line; with at most one of them set, the offset is the value of that
    option in seconds. *)
Theorem offset_of_exclusive (hours minutes seconds : Z) :
  (hours = 0 \/ minutes = 0)%Z -> (hours = 0 \/ seconds = 0)%Z ->
  (minutes = 0 \/ seconds = 0)%Z ->
  offset_of hours minutes seconds = (hours * 3600 + minutes * 60 + seconds)%Z.
Proof.
  intros H1 H2 H3. unfold offset_of.
  destruct (Z.eqb_spec hours 0) as [Eh|Eh]; simpl.
  - destruct (Z.eqb_spec minutes 0) as [Em|Em]; simpl; lia.
  - lia.
Qed.

Lemma offset_of_exclusive_witness :
  offset_of 0 (-90) 0 = (0 * 3600 + -90 * 60 + 0)%Z.
Proof.
  apply (offset_of_exclusive 0 (-90) 0); [left|left|right]; reflexivity.
Defined.

Lemma getitem_last {A : Type} (l : list A) (d : A) :
  (1 <= length l)%nat -> Py.getitem l (-1) = Ok (nth (length l - 1) l d).
Proof.
  intros Hl. unfold Py.getitem. change (-1 <? 0)%Z with true. cbv iota.
  replace ((0 <=? -1 + Z.of_nat (length l))%Z
           && (-1 + Z.of_nat (length l) <? Z.of_nat (length l))%Z) with true.
  - replace (Z.to_nat (-1 + Z.of_nat (length l))) with (length l - 1)%nat by lia.
    rewrite (nth_error_nth' l d) by lia. reflexivity.
  - symmetry. apply andb_true_iff. split; [apply Z.leb_le|apply Z.ltb_lt]; lia.
Qed.

Section DriverFurther.

Variables image exif bytes : Type.
Variable piexif_load : image -> outcome exif.
Variable date_time_original : exif -> outcome Q.
Variable set_gps : exif -> gmap Z exif_value -> exif.
Variable piexif_dump : exif -> outcome bytes.
Variable piexif_insert : bytes -> image -> outcome unit.
Variable image_dir : option image.
Variable glob : string -> list image.

Local Abbreviation run :=
  (geotag image exif bytes piexif_load date_time_original set_gps
     piexif_dump piexif_insert).
Local Abbreviation run_all :=
  (geotag_all image exif bytes piexif_load date_time_original set_gps
     piexif_dump piexif_insert).
Local Abbreviation run_main :=
  (main image exif bytes piexif_load date_time_original set_gps
     piexif_dump piexif_insert image_dir glob).

Lemma geotag_all_ok_inv (times : list Q) (coords : list (Q * Q * Q)) (offset : Z)
  (images : list image) :
  forall written w',
    run_all times coords offset images written = (w', Ok tt) ->
    Forall (fun im => exists b, run times coords offset im = Ok b) images.
Proof.
  induction images as [|im images IH]; intros written w' H; [constructor|].
  simpl in H.
  destruct (run times coords offset im) as [b|e] eqn:E.
  - constructor; [exists b; exact E|]. exact (IH _ _ H).
  - discriminate.
Qed.

(** X17: the loop ends normally exactly when every image of the batch
    is tagged, and then it has written all of them, in order. *)
Theorem geotag_all_completes (times : list Q) (coords : list (Q * Q * Q))
  (offset : Z) (images : list image) (written : list (image * bytes)) :
  (Forall (fun im => exists b, run times coords offset im = Ok b) images ->
     exists w, map fst w = images
       /\ run_all times coords offset images written = (written ++ w, Ok tt))
  /\ (forall w', run_all times coords offset images written = (w', Ok tt) ->
        Forall (fun im => exists b, run times coords offset im = Ok b) images).
Proof.
  split.
  - intros Hall.
    destruct (geotag_all_through image exif bytes piexif_load date_time_original
                set_gps piexif_dump piexif_insert times coords offset images []
                written Hall) as [w [Hw Hrun]].
    exists w. split; [exact Hw|]. rewrite app_nil_r in Hrun. exact Hrun.
  - intros w'. apply geotag_all_ok_inv.
Qed.

(** X18: whatever happens, the loop keeps what was written before it,
    and what it adds are the results of tagging a leading part of the
    batch, image by image. *)
Theorem geotag_all_written (times : list Q) (coords : list (Q * Q * Q))
  (offset : Z) (images : list image) :
  forall written, exists w rest,
    fst (run_all times coords offset images written) = written ++ w
    /\ images = map fst w ++ rest
    /\ Forall (fun x => run times coords offset (fst x) = Ok (snd x)) w.
Proof.
  induction images as [|im images IH]; intros written.
  - exists [], []. simpl. rewrite app_nil_r. repeat split. constructor.
  - simpl. destruct (run times coords offset im) as [b|e] eqn:E.
    + destruct (IH (written ++ [(im, b)])) as [w [rest [Hw [Him Hall]]]].
      exists ((im, b) :: w), rest. rewrite Hw, <- app_assoc. simpl.
      repeat split; [rewrite Him; reflexivity|].
      constructor; [exact E|exact Hall].
    + exists [], (im :: images). simpl. rewrite app_nil_r.
      repeat split. constructor.
Qed.





End DriverFurther.

Lemma geotag_all_completes_witness :
  exists w, map fst w = ["a.jpg"%string; "b.jpg"%string]
    /\ Fixture.geotag_all Fixture.times Fixture.coords 0
         ["a.jpg"%string; "b.jpg"%string] []
       = ([] ++ w, Ok tt).
Proof.
  apply (proj1 (geotag_all_completes string (Q * gmap Z exif_value)
                  (gmap Z exif_value) Fixture.load_gps Fixture.capture_time
                  Fixture.store_gps Fixture.dump Fixture.insert
                  Fixture.times Fixture.coords 0%Z
                  ["a.jpg"%string; "b.jpg"%string] [])).
  repeat constructor; eexists; vm_compute; reflexivity.
Defined.




